(** * bib_demand: a shallow embedding of [bib_demand.py]

    The development follows the source file top to bottom: the Python
    built-ins the program relies on ([str] methods, the one regular
    expression, [sorted]), then the class [LitItem], then the class
    [Bibliography].

    Conventions.
    - A Python [str] is a [string]; a character is a code point below 256,
      so [isspace] lists the code points below 256 that Python treats as
      white space.
    - A dictionary is a [gmap] with string keys.  A value stored in the field
      map of a [LitItem] is [None] or a [str] ([pyval]).
    - A computation that may raise is an [outcome]; the loops that advance a
      cursor by a computed offset take fuel, and [OutOfFuel] is the answer of a
      loop that is cut off. *)

From Stdlib Require Import Ascii String NArith DecimalString Sorted.
From stdpp Require Import base option list gmap strings.

Local Open Scope string_scope.
Local Open Scope list_scope.

(** ** Outcomes *)

Inductive exn : Set :=
  | IndexError
  | AttributeError
  | ValueError.

Inductive outcome (A : Type) : Type :=
  | Ret (a : A)
  | Raise (e : exn)
  | OutOfFuel.
Arguments Ret {A} a.
Arguments Raise {A} e.
Arguments OutOfFuel {A}.

Definition bind {A B : Type} (m : outcome A) (f : A → outcome B) : outcome B :=
  match m with
  | Ret a => f a
  | Raise e => Raise e
  | OutOfFuel => OutOfFuel
  end.

Notation "x <- m ; k" := (bind m (fun x => k))
  (at level 20, m at level 100, k at level 200).
Notation "' pat <- m ; k" := (bind m (fun x => match x with pat => k end))
  (at level 20, pat pattern, m at level 100, k at level 200).

(** [mapM] in the order of the list: the first element that raises decides. *)
Fixpoint outcome_mapM {A B : Type} (f : A → outcome B) (l : list A)
    : outcome (list B) :=
  match l with
  | [] => Ret []
  | x :: l' => y <- f x; ys <- outcome_mapM f l'; Ret (y :: ys)
  end.

(** ** Python built-ins *)

Module Py.

Definition LF : string := String "010" "".

(** [str.isspace] of one character. *)
Definition isspace (c : ascii) : bool :=
  let n := N_of_ascii c in
  (((9 <=? n) && (n <=? 13)) || ((28 <=? n) && (n <=? 32))
   || (n =? 133) || (n =? 160))%N.

Fixpoint lstrip (s : string) : string :=
  match s with
  | "" => ""
  | String c s' => if isspace c then lstrip s' else s
  end.

Fixpoint rstrip (s : string) : string :=
  match s with
  | "" => ""
  | String c s' =>
    match rstrip s' with
    | "" => if isspace c then "" else String c ""
    | r => String c r
    end
  end.

Definition strip (s : string) : string := rstrip (lstrip s).

Definition startswith (s p : string) : bool := String.prefix p s.

(** Truth value of a [str]. *)
Definition truthy (s : string) : bool :=
  match s with "" => false | _ => true end.

Definition may_replace (count : option nat) : bool :=
  match count with Some O => false | _ => true end.

(** [s.replace(old, new)] and [s.replace(old, new, count)] for a non-empty
    [old] (every call in the program passes a non-empty literal).  The scan
    goes left to right; after a match the next [length old - 1] characters
    belong to the match and are skipped. *)
Fixpoint replace_go (old new : string) (count : option nat) (skip : nat)
    (s : string) : string :=
  match s with
  | "" => ""
  | String c s' =>
    match skip with
    | S k => replace_go old new count k s'
    | O =>
      if may_replace count && String.prefix old s
      then new +:+ replace_go old new (Nat.pred <$> count) (String.length old - 1) s'
      else String c (replace_go old new count 0 s')
    end
  end.

Definition replace (old new : string) (s : string) : string :=
  replace_go old new None 0 s.

Definition replace_n (old new : string) (count : nat) (s : string) : string :=
  replace_go old new (Some count) 0 s.

(** [s.split(sep)] for a non-empty [sep]. *)
Fixpoint split_go (sep : string) (skip : nat) (cur : string) (s : string)
    : list string :=
  match s with
  | "" => [cur]
  | String c s' =>
    match skip with
    | S k => split_go sep k cur s'
    | O =>
      if String.prefix sep s
      then cur :: split_go sep (String.length sep - 1) "" s'
      else split_go sep 0 (cur +:+ String c "") s'
    end
  end.

Definition split (sep : string) (s : string) : list string :=
  split_go sep 0 "" s.

(** [sep.join(l)]. *)
Definition join (sep : string) (l : list string) : string :=
  String.concat sep l.

(** [str(n)] for a length. *)
Definition str_of_nat (n : nat) : string :=
  NilZero.string_of_uint (Nat.to_uint n).

(** What [.] matches greedily: everything up to the first line feed. *)
Fixpoint until_newline (s : string) : string :=
  match s with
  | "" => ""
  | String c s' => if Ascii.eqb c "010" then "" else String c (until_newline s')
  end.

(** [re.match(pattern, line)] for the pattern of [__extract_ris]: two
    characters that are not white space (group 1), two white space
    characters, a dash, then the rest of the line (group 2).  The match is
    anchored at the start of the line only.  Returns the two groups. *)
Definition re_match_tag (line : string) : option (string * string) :=
  match line with
  | String c0 (String c1 (String c2 (String c3 (String c4 rest)))) =>
    if negb (isspace c0) && negb (isspace c1) && isspace c2 && isspace c3
       && Ascii.eqb c4 "-"
    then Some (String c0 (String c1 ""), until_newline rest)
    else None
  | _ => None
  end.

(** Keys are compared with [<] on [str]: code point by code point. *)
Definition str_lt (a b : string) : bool := String.ltb a b.

(** [sorted(l, key=...)] once the keys are computed.  The built-in is a
    stable ascending sort that only asks [<] of the keys; a stable sort has
    one possible result, computed here by insertion. *)
Fixpoint sorted_insert {A : Type} (x : string * A) (l : list (string * A))
    : list (string * A) :=
  match l with
  | [] => [x]
  | y :: l' => if str_lt y.1 x.1 then y :: sorted_insert x l' else x :: l
  end.

Fixpoint sorted_keyed {A : Type} (l : list (string * A)) : list (string * A) :=
  match l with
  | [] => []
  | x :: l' => sorted_insert x (sorted_keyed l')
  end.

(** The key function runs on every element, in order, before any
    comparison; an exception there leaves [sorted]. *)
Definition sorted {A : Type} (key : A → outcome string) (l : list A)
    : outcome (list A) :=
  ks <- outcome_mapM (λ x, k <- key x; Ret (k, x)) l;
  Ret (sorted_keyed ks).*2.

End Py.

(** ** class LitItem *)

Inductive pyval : Set :=
  | PyNone
  | PyStr (s : string).

#[global] Instance pyval_eq_dec : EqDecision pyval.
Proof. solve_decision. Defined.

(** A method of [str] called on a value: [None] has no such attribute. *)
Definition as_str (v : pyval) : outcome string :=
  match v with
  | PyStr s => Ret s
  | PyNone => Raise AttributeError
  end.

(** [d.get(key, default)]. *)
Definition dict_get {V : Type} (d : gmap string V) (key : string) (dflt : V) : V :=
  default dflt (d !! key).

Record LitItem : Type := mkLitItem { data : gmap string pyval }.

#[global] Instance LitItem_eq_dec : EqDecision LitItem.
Proof. solve_decision. Defined.

Definition get_title (self : LitItem) : outcome string :=
  t <- as_str (dict_get (data self) "T1" (PyStr "kein Titel"));
  Ret (Py.strip (Py.replace Py.LF " " t)).

Definition get_year (self : LitItem) : outcome string :=
  match dict_get (data self) "PY" (PyStr "kein Jahr") with
  | PyNone => Ret "kein Jahr"
  | PyStr year =>
    if negb (Py.truthy year) then Ret "kein Jahr"
    else Ret (Py.strip (Py.replace "]" "" (Py.replace "[" "" year)))
  end.

Definition get_author (self : LitItem) : outcome string :=
  a1 <- as_str (dict_get (data self) "A1" (PyStr ""));
  let author := Py.strip (Py.replace Py.LF " " a1) in
  if negb (Py.truthy author) then
    a2 <- as_str (dict_get (data self) "A2" (PyStr "kein Autor"));
    Ret (Py.strip (Py.replace Py.LF " " a2))
  else Ret author.

(** [__eq__]: [and] evaluates the years only when the titles agree. *)
Definition LitItem_eq (self other : LitItem) : outcome bool :=
  t1 <- get_title self;
  t2 <- get_title other;
  if String.eqb t1 t2 then
    y1 <- get_year self;
    y2 <- get_year other;
    Ret (String.eqb y1 y2)
  else Ret false.

(** [__str__]: the arguments of [format] are evaluated left to right. *)
Definition LitItem_str (self : LitItem) : outcome string :=
  a <- get_author self;
  t <- get_title self;
  y <- get_year self;
  Ret (a +:+ Py.LF +:+ t +:+ Py.LF +:+ y +:+ Py.LF).

(** [__extract_tricat]: [data.get('author')] and [data.get('year')] have no
    default, so an absent key is stored as [None]. *)
Definition extract_tricat (d : gmap string string) : gmap string pyval :=
  <["PY" := from_option PyStr PyNone (d !! "year")]>
  (<["T1" := PyStr (Py.join " " [dict_get d "title" ""; dict_get d "subtitle" ""])]>
  (<["A1" := from_option PyStr PyNone (d !! "author")]> ∅)).

(** The loop of [__extract_ris] over the lines, on the state
    [(d, current_key, current_datum)]. *)
Definition extract_ris_step (st : gmap string pyval * string * string)
    (line : string) : gmap string pyval * string * string :=
  let '(d, current_key, current_datum) := st in
  match Py.re_match_tag line with
  | Some (key, datum) =>
    ((if Py.truthy current_key then <[current_key := PyStr current_datum]> d else d),
     key, datum)
  | None => (d, current_key, current_datum +:+ Py.LF +:+ line)
  end.

Definition extract_ris_lines (lines : list string) : gmap string pyval :=
  let '(d, current_key, current_datum) := foldl extract_ris_step (∅, "", "") lines in
  <[current_key := PyStr current_datum]> d.

Definition extract_ris (text : string) : gmap string pyval :=
  extract_ris_lines (Py.split Py.LF text).

(** The constructor, one function per recognised [data_type]. *)
Definition LitItem_ris (text : string) : LitItem := mkLitItem (extract_ris text).
Definition LitItem_tricat (d : gmap string string) : LitItem :=
  mkLitItem (extract_tricat d).

(** ** class Bibliography *)

(** *** The fixed-field reader *)

(** The label removal inside the loop of [__accumulate_tricat_lines]. *)
Definition accumulate_strip_label (line : string) : string :=
  if Py.startswith (Py.lstrip line) "Haupttitel" then
    Py.replace_n "Haupttitel" "" 1 line
  else if Py.startswith (Py.lstrip line) "Titelzusatz" then
    Py.replace_n "Titelzusatz" "" 1 line
  else if Py.startswith (Py.lstrip line) "1. Person" then
    Py.replace "1. Person/Fam." "" line
  else line.

(** The [while] loop of [__accumulate_tricat_lines].  Its condition reads
    [lines[line_number]] first and compares [line_number] with [count]
    second. *)
Fixpoint accumulate_loop (fuel : nat) (lines : list string) (line_number : nat)
    (acc : list string) : outcome (list string) :=
  match fuel with
  | O => OutOfFuel
  | S fuel' =>
    match lines !! line_number with
    | None => Raise IndexError
    | Some l =>
      if Py.truthy (Py.strip l) && (line_number <? length lines)%nat then
        let line := accumulate_strip_label l in
        let line := Py.strip line in
        let line := Py.replace Py.LF "" line in
        accumulate_loop fuel' lines (S line_number) (acc ++ [line])
      else Ret acc
    end
  end.

Definition accumulate_tricat_lines (lines : list string) (line_number : nat)
    : outcome (string * nat) :=
  acc <- accumulate_loop (S (length lines)) lines line_number [];
  Ret (Py.join " " acc, length acc).

(** The [while] loop of [__read_tricat_file] on the lines that
    [f.readlines()] returned. *)
Fixpoint read_tricat_loop (fuel : nat) (all_lines : list string) (line_number : nat)
    (current_data : gmap string string) (items : list LitItem)
    : outcome (list LitItem) :=
  match fuel with
  | O => OutOfFuel
  | S fuel' =>
    if (line_number <? length all_lines)%nat then
      match all_lines !! line_number with
      | None => Raise IndexError
      | Some line =>
        if Py.startswith (Py.lstrip line) "Jahr" then
          read_tricat_loop fuel' all_lines (line_number + 1)
            (<["year" := Py.strip (Py.replace_n "Jahr" "" 1 line)]> current_data) items
        else if Py.startswith (Py.lstrip line) "Haupttitel" then
          r <- accumulate_tricat_lines all_lines line_number;
          read_tricat_loop fuel' all_lines (line_number + r.2)
            (<["title" := r.1]> current_data) items
        else if Py.startswith (Py.lstrip line) "Titelzusatz" then
          r <- accumulate_tricat_lines all_lines line_number;
          read_tricat_loop fuel' all_lines (line_number + r.2)
            (<["subtitle" := r.1]> current_data) items
        else if Py.startswith (Py.lstrip line) "1. Person" then
          let committed :=
            if bool_decide (current_data = ∅) then (items, current_data)
            else (items ++ [LitItem_tricat current_data], ∅) in
          r <- accumulate_tricat_lines all_lines line_number;
          read_tricat_loop fuel' all_lines (line_number + r.2)
            (<["author" := r.1]> committed.2) committed.1
        else
          read_tricat_loop fuel' all_lines (line_number + 1) current_data items
      end
    else Ret (items ++ [LitItem_tricat current_data])
  end.

Definition read_tricat_file (all_lines : list string) : outcome (list LitItem) :=
  read_tricat_loop (S (length all_lines)) all_lines 0 ∅ [].

(** The [while] loop of [__read_tricat_file] on its own, up to the line
    before the last commit: the entries committed so far and the working
    field set, as they stand when the cursor has passed the last line. *)
Fixpoint read_tricat_scan (fuel : nat) (all_lines : list string) (line_number : nat)
    (current_data : gmap string string) (items : list LitItem)
    : outcome (list LitItem * gmap string string) :=
  match fuel with
  | O => OutOfFuel
  | S fuel' =>
    if (line_number <? length all_lines)%nat then
      match all_lines !! line_number with
      | None => Raise IndexError
      | Some line =>
        if Py.startswith (Py.lstrip line) "Jahr" then
          read_tricat_scan fuel' all_lines (line_number + 1)
            (<["year" := Py.strip (Py.replace_n "Jahr" "" 1 line)]> current_data) items
        else if Py.startswith (Py.lstrip line) "Haupttitel" then
          r <- accumulate_tricat_lines all_lines line_number;
          read_tricat_scan fuel' all_lines (line_number + r.2)
            (<["title" := r.1]> current_data) items
        else if Py.startswith (Py.lstrip line) "Titelzusatz" then
          r <- accumulate_tricat_lines all_lines line_number;
          read_tricat_scan fuel' all_lines (line_number + r.2)
            (<["subtitle" := r.1]> current_data) items
        else if Py.startswith (Py.lstrip line) "1. Person" then
          let committed :=
            if bool_decide (current_data = ∅) then (items, current_data)
            else (items ++ [LitItem_tricat current_data], ∅) in
          r <- accumulate_tricat_lines all_lines line_number;
          read_tricat_scan fuel' all_lines (line_number + r.2)
            (<["author" := r.1]> committed.2) committed.1
        else
          read_tricat_scan fuel' all_lines (line_number + 1) current_data items
      end
    else Ret (items, current_data)
  end.

(** [f.readlines()] on the text of the file, as the text layer hands it
    over (decoded, line ends as line feeds): the lines, each with its line
    feed, the last one without when the text does not end with one. *)
Fixpoint readlines_go (cur : string) (s : string) : list string :=
  match s with
  | "" => if Py.truthy cur then [cur] else []
  | String c s' =>
    if Ascii.eqb c "010" then (cur +:+ Py.LF) :: readlines_go "" s'
    else readlines_go (cur +:+ String c "") s'
  end.

Definition readlines (text : string) : list string := readlines_go "" text.

(** [__read_tricat_file] from the text of the file. *)
Definition read_tricat_text (text : string) : outcome (list LitItem) :=
  read_tricat_file (readlines text).

(** *** The tagged-field reader *)

Definition split_ris (text : string) : list string :=
  Py.split (Py.LF +:+ Py.LF) text.

Definition read_ris_file (text : string) : list LitItem :=
  LitItem_ris <$> split_ris text.

(** *** Objects

    A [Bibliography] is an object with one attribute, [items]; the store maps
    the address of each [Bibliography] to the list its [items] holds.  The
    [LitItem]s in the lists are shared between collections and never
    written after construction. *)

Definition get_items (self : nat) (st : gmap nat (list LitItem))
    : outcome (list LitItem) :=
  match st !! self with
  | Some l => Ret l
  | None => Raise AttributeError
  end.

(** [Bibliography()]: a new object whose [items] is the empty list. *)
Definition Bibliography_new (st : gmap nat (list LitItem))
    : nat * gmap nat (list LitItem) :=
  let a := fresh (dom st) in (a, <[a := []]> st).

(** [bib.items = l]. *)
Definition set_items (bib : nat) (l : list LitItem) (st : gmap nat (list LitItem))
    : gmap nat (list LitItem) :=
  <[bib := l]> st.

(** [item in l] for a list [l]: the elements are compared with [==] from the
    left, and the first [True] decides.  (The interpreter also answers [True]
    for an element that is the very object [item]; [__eq__] is reflexive
    wherever it returns, so the answer is the same.) *)
Fixpoint list_contains (item : LitItem) (l : list LitItem) : outcome bool :=
  match l with
  | [] => Ret false
  | x :: l' =>
    b <- LitItem_eq x item;
    if b then Ret true else list_contains item l'
  end.

Fixpoint filter_items (keep : LitItem → outcome bool) (l : list LitItem)
    : outcome (list LitItem) :=
  match l with
  | [] => Ret []
  | x :: l' =>
    b <- keep x;
    r <- filter_items keep l';
    Ret (if b then x :: r else r)
  end.

Definition intersect (self other : nat) (st : gmap nat (list LitItem))
    : outcome (nat * gmap nat (list LitItem)) :=
  let '(intersection, st1) := Bibliography_new st in
  mine <- get_items self st1;
  r <- filter_items (λ item, o <- get_items other st1; list_contains item o) mine;
  Ret (intersection, set_items intersection r st1).

Definition difference (self other : nat) (st : gmap nat (list LitItem))
    : outcome (nat * gmap nat (list LitItem)) :=
  let '(diff, st1) := Bibliography_new st in
  mine <- get_items self st1;
  r <- filter_items (λ item, o <- get_items other st1;
                            b <- list_contains item o; Ret (negb b)) mine;
  Ret (diff, set_items diff r st1).

(** The [for] loop of [unique] with its accumulator, the local list. *)
Fixpoint unique_loop (items : list LitItem) (acc : list LitItem)
    : outcome (list LitItem) :=
  match items with
  | [] => Ret acc
  | item :: rest =>
    b <- list_contains item acc;
    unique_loop rest (if b then acc else acc ++ [item])
  end.

Definition unique (self : nat) (st : gmap nat (list LitItem))
    : outcome (nat * gmap nat (list LitItem)) :=
  items <- get_items self st;
  u <- unique_loop items [];
  let '(bib, st1) := Bibliography_new st in
  Ret (bib, set_items bib u st1).

Definition order_by (self : nat) (attr : string) (st : gmap nat (list LitItem))
    : outcome (nat * gmap nat (list LitItem)) :=
  sorted_items <-
    (if String.eqb attr "title" then
       items <- get_items self st; Py.sorted get_title items
     else if String.eqb attr "author" then
       items <- get_items self st; Py.sorted get_author items
     else if String.eqb attr "year" then
       items <- get_items self st; Py.sorted get_year items
     else Raise ValueError);
  let '(bib, st1) := Bibliography_new st in
  Ret (bib, set_items bib sorted_items st1).

(** A value handed to [in]: a [LitItem], or anything else. *)
Inductive pyobj : Type :=
  | ObjLitItem (r : LitItem)
  | ObjOther.

(** [__contains__]: [item in bibliography].  Here [item] is on the left of
    [==]. *)
Fixpoint contains_loop (item : LitItem) (l : list LitItem) : outcome bool :=
  match l with
  | [] => Ret false
  | containing :: l' =>
    b <- LitItem_eq item containing;
    if b then Ret true else contains_loop item l'
  end.

Definition Bibliography_contains (self : nat) (item : pyobj)
    (st : gmap nat (list LitItem)) : outcome bool :=
  match item with
  | ObjOther => Raise ValueError
  | ObjLitItem r => items <- get_items self st; contains_loop r items
  end.

(** [__len__] and [__str__]. *)
Definition Bibliography_len (self : nat) (st : gmap nat (list LitItem))
    : outcome nat :=
  items <- get_items self st; Ret (length items).

Definition Bibliography_str (self : nat) (st : gmap nat (list LitItem))
    : outcome string :=
  items <- get_items self st;
  strs <- outcome_mapM LitItem_str items;
  Ret (Py.join Py.LF strs).

(** [write_to_file]: the path that is opened for writing and the text of
    the two [f.write] calls, when both complete. *)
Definition write_to_file (self : nat) (filepath header : string)
    (st : gmap nat (list LitItem)) : outcome (string * string) :=
  n <- Bibliography_len self st;
  let length := Py.str_of_nat n in
  let first := header +:+ " (" +:+ length +:+ ")" +:+ Py.LF +:+ Py.LF in
  second <- Bibliography_str self st;
  Ret ("results/" +:+ filepath, first +:+ second).

(** * Vocabulary of the properties *)

(** ** Records *)

#[global] Instance exn_eq_dec : EqDecision exn.
Proof. solve_decision. Defined.
#[global] Instance outcome_eq_dec {A} `{EqDecision A} : EqDecision (outcome A).
Proof. solve_decision. Defined.

(** The title entry of a field map is never [None]: [__extract_ris] stores
    only strings, and [__extract_tricat] stores the result of a [join]. *)
Definition has_str_title (r : LitItem) : Prop := data r !! "T1" ≠ Some PyNone.

(** The Records: what the constructor returns for the two data types. *)
Inductive constructed : LitItem → Prop :=
  | constructed_ris (text : string) : constructed (LitItem_ris text)
  | constructed_tricat (d : gmap string string) : constructed (LitItem_tricat d).

(** A field map without [None]. *)
Definition all_str (d : gmap string pyval) : Prop :=
  ∀ k v, d !! k = Some v → ∃ s, v = PyStr s.

(** The pair that [==] compares. *)
Definition eq_key (r : LitItem) : outcome string * outcome string :=
  (get_title r, get_year r).

(** ** The fixed-field reader *)

(** What one consumed line contributes. *)
Definition fragment (l : string) : string :=
  Py.replace Py.LF "" (Py.strip (accumulate_strip_label l)).

(** The loop, told over the lines from the cursor on: it stops at the first
    blank line, and runs off the end when there is none. *)
Fixpoint accumulate_from (rest : list string) (acc : list string)
    : outcome (list string) :=
  match rest with
  | [] => Raise IndexError
  | l :: rest' =>
    if Py.truthy (Py.strip l) then accumulate_from rest' (acc ++ [fragment l])
    else Ret acc
  end.

(** A line that carries none of the four labels. *)
Definition unlabelled (l : string) : Prop :=
  Py.startswith (Py.lstrip l) "Jahr" = false ∧
  Py.startswith (Py.lstrip l) "Haupttitel" = false ∧
  Py.startswith (Py.lstrip l) "Titelzusatz" = false ∧
  Py.startswith (Py.lstrip l) "1. Person" = false.

(** ** Deduplication and sorting *)

(** The loop of [unique] over a comparison that cannot raise. *)
Fixpoint unique_by {A K : Type} `{EqDecision K} (k : A → K) (items acc : list A)
    : list A :=
  match items with
  | [] => acc
  | x :: rest =>
    unique_by k rest (if bool_decide (k x ∈ k <$> acc) then acc else acc ++ [x])
  end.

(** What holds of the accumulator once the items [seen] are behind. *)
Definition firsts_of {A K : Type} (k : A → K) (seen acc : list A) : Prop :=
  NoDup (k <$> acc) ∧
  sublist acc seen ∧
  ∀ x, x ∈ seen →
    ∃ i y, y ∈ acc ∧ seen !! i = Some y ∧ k y = k x ∧
           ∀ j z, j < i → seen !! j = Some z → k z ≠ k x.

(** [a] does not come after [b]. *)
Definition str_le (a b : string) : Prop := String.leb a b = true.

(** A decorated element: the key next to the element it was computed from. *)
Definition keyed {A : Type} (key : A → outcome string) (p : string * A) : Prop :=
  key p.2 = Ret p.1.

(** ** The report *)

(** The three lines of one Record. *)
Definition entry_block (row : string * string * string) : string :=
  row.1.1 +:+ Py.LF +:+ row.1.2 +:+ Py.LF +:+ row.2 +:+ Py.LF.

(** The report in the words of the specification: the header line, a blank
    line, and for each Record its three lines followed by a blank line. *)
Definition spec_report (header : string) (rows : list (string * string * string))
    : string :=
  header +:+ " (" +:+ Py.str_of_nat (length rows) +:+ ")" +:+ Py.LF +:+ Py.LF
  +:+ String.concat "" ((λ row, entry_block row +:+ Py.LF) <$> rows).

(** The values the three accessors return for a Record. *)
Definition relevant (r : LitItem) (row : string * string * string) : Prop :=
  get_author r = Ret row.1.1 ∧ get_title r = Ret row.1.2 ∧ get_year r = Ret row.2.

(** ** Example inputs *)

(** Two entries with the same title and year and differently written
    authors. *)
Definition entry_jane : string :=
  "T1  - Foo" +:+ Py.LF +:+ "PY  - 2020" +:+ Py.LF +:+ "A1  - Jane Doe".
Definition entry_doe : string :=
  "T1  - Foo" +:+ Py.LF +:+ "PY  - [2020]" +:+ Py.LF +:+ "A1  - Doe, J.".

(** The three lines of the fixed-field example: the author line first, the
    author line last, the three lines and nothing else, and the author line
    first with the label written in full. *)
Definition block_author_first : list string :=
  [ "1. Person Smith, J." +:+ Py.LF; Py.LF;
    "Jahr 2019" +:+ Py.LF; "Haupttitel Bar" +:+ Py.LF; Py.LF ].

Definition block_author_last : list string :=
  [ "Jahr 2019" +:+ Py.LF; "Haupttitel Bar" +:+ Py.LF;
    "1. Person Smith, J." +:+ Py.LF; Py.LF ].

Definition block_bare : list string :=
  [ "Jahr 2019" +:+ Py.LF; "Haupttitel Bar" +:+ Py.LF;
    "1. Person Smith, J." +:+ Py.LF ].

Definition block_full_label : list string :=
  [ "1. Person/Fam. Smith, J." +:+ Py.LF; Py.LF;
    "Jahr 2019" +:+ Py.LF; "Haupttitel Bar" +:+ Py.LF; Py.LF ].

(** A year block before the first author line. *)
Definition block_year_then_author : list string :=
  [ "Jahr 2019" +:+ Py.LF; Py.LF; "1. Person/Fam. Smith, J." +:+ Py.LF; Py.LF ].

(** An entry in which the year tag occurs twice. *)
Definition entry_two_years : string :=
  "PY  - 1999" +:+ Py.LF +:+ "PY  - 2020" +:+ Py.LF +:+ "T1  - Foo".

(** An entry whose year field goes on in a second line. *)
Definition entry_two_line_year : string :=
  "PY  - 2020" +:+ Py.LF +:+ "und 2021".

(** A collection in which the first and the third Record compare equal. *)
Definition three_items : list LitItem :=
  [LitItem_ris entry_jane; LitItem_ris "T1  - Bar"; LitItem_ris entry_doe].

(** ** Characters of a string *)

(** The characters of a string, in order. *)
Definition chars (s : string) : list ascii := list_ascii_of_string s.

Definition line_feed : ascii := "010"%char.
Definition lbracket : ascii := "["%char.
Definition rbracket : ascii := "]"%char.

(** ** Records with an author *)

(** A Record of the fixed-field reader whose working field set had an
    author. *)
Definition authored (r : LitItem) : Prop :=
  ∃ d a, r = LitItem_tricat d ∧ d !! "author" = Some a.

(** ** Set operations *)

(** [x] compares equal to some Record of [l]. *)
Definition equal_in (l : list LitItem) (x : LitItem) : Prop :=
  eq_key x ∈ eq_key <$> l.

#[global] Instance equal_in_dec l x : Decision (equal_in l x).
Proof. unfold equal_in. apply _. Defined.

(** A store with two collections. *)
Definition two_collections : gmap nat (list LitItem) :=
  {[0 := three_items; 1 := [LitItem_ris "T1  - Qux"]]}.

(** * Properties *)

(** ** The built-ins on small inputs *)

Example replace_all : Py.replace "aa" "b" "aaaaa" = "bba".
Proof. reflexivity. Qed.

Example replace_first :
  Py.replace_n "Jahr" "" 1 "Jahr 1900, Jahr 2000" = " 1900, Jahr 2000".
Proof. reflexivity. Qed.

Example strip_both : Py.strip ("  Jahr 2019 " +:+ Py.LF) = "Jahr 2019".
Proof. reflexivity. Qed.

Example split_lines :
  Py.split Py.LF ("a" +:+ Py.LF +:+ Py.LF +:+ "b" +:+ Py.LF) = ["a"; ""; "b"; ""].
Proof. reflexivity. Qed.

Example split_empty : Py.split Py.LF "" = [""].
Proof. reflexivity. Qed.

Example split_chunks :
  split_ris ("a" +:+ Py.LF +:+ Py.LF +:+ Py.LF +:+ "b") = ["a"; Py.LF +:+ "b"].
Proof. reflexivity. Qed.

Example match_tag : Py.re_match_tag "T1  - Foo" = Some ("T1", " Foo").
Proof. reflexivity. Qed.

Example match_no_tag : Py.re_match_tag "T1 - Foo" = None.
Proof. reflexivity. Qed.

Example str_of_len : Py.str_of_nat 120 = "120".
Proof. reflexivity. Qed.

Example sorted_is_stable :
  Py.sorted_keyed [("b", 1); ("a", 2); ("b", 3); ("a", 4)]
  = [("a", 2); ("a", 4); ("b", 1); ("b", 3)].
Proof. reflexivity. Qed.

(** The tagged-field example: title, year and author of one entry. *)
Example ris_entry :
  let r := LitItem_ris ("T1  - Foo" +:+ Py.LF +:+ "PY  - 2020" +:+ Py.LF
                        +:+ "A1  - Jane Doe" +:+ Py.LF) in
  get_title r = Ret "Foo" ∧ get_year r = Ret "2020" ∧ get_author r = Ret "Jane Doe".
Proof. vm_compute. repeat split. Qed.

(** ** Records built by the constructor *)

Lemma all_str_insert d k s : all_str d → all_str (<[k := PyStr s]> d).
Proof.
  intros Hd k' v. rewrite lookup_insert. case_decide.
  - intros [= <-]. eauto.
  - apply Hd.
Qed.

Lemma extract_ris_step_all_str st line :
  all_str st.1.1 → all_str (extract_ris_step st line).1.1.
Proof.
  destruct st as [[d ck] cd]. unfold extract_ris_step. simpl.
  destruct (Py.re_match_tag line) as [[key datum]|]; simpl; [|done].
  destruct (Py.truthy ck); [apply all_str_insert|done].
Qed.

Lemma extract_ris_fold_all_str lines st :
  all_str st.1.1 → all_str (foldl extract_ris_step st lines).1.1.
Proof.
  revert st. induction lines as [|l lines IH]; intros st Hst; simpl; [done|].
  apply IH, extract_ris_step_all_str, Hst.
Qed.

Lemma extract_ris_lines_all_str lines : all_str (extract_ris_lines lines).
Proof.
  unfold extract_ris_lines.
  pose proof (extract_ris_fold_all_str lines (∅, "", "")) as H.
  destruct (foldl extract_ris_step (∅, "", "") lines) as [[d ck] cd].
  apply all_str_insert, H. simpl. intros k v. by rewrite lookup_empty.
Qed.

Lemma LitItem_ris_has_str_title text : has_str_title (LitItem_ris text).
Proof.
  unfold has_str_title. simpl. intros H.
  destruct (extract_ris_lines_all_str _ _ _ H) as [s' Hs]. discriminate.
Qed.

Lemma LitItem_tricat_has_str_title d : has_str_title (LitItem_tricat d).
Proof. unfold has_str_title. simpl. unfold extract_tricat. by simplify_map_eq. Qed.

Lemma constructed_has_str_title r : constructed r → has_str_title r.
Proof.
  intros [text|d];
    [apply LitItem_ris_has_str_title|apply LitItem_tricat_has_str_title].
Qed.

(** ** The accessors *)

Lemma get_title_ret (r : LitItem) :
  has_str_title r → ∃ t, get_title r = Ret t.
Proof.
  unfold has_str_title, get_title, dict_get. intros H.
  destruct (data r !! "T1") as [[|s]|]; simpl; eauto. done.
Qed.

Lemma get_year_ret (r : LitItem) : ∃ y, get_year r = Ret y.
Proof.
  unfold get_year. destruct (dict_get _ _ _) as [|y]; eauto.
  destruct (negb _); eauto.
Qed.

Lemma get_title_lookup (r1 r2 : LitItem) :
  data r1 !! "T1" = data r2 !! "T1" → get_title r1 = get_title r2.
Proof. unfold get_title, dict_get. by intros ->. Qed.

Lemma get_year_lookup (r1 r2 : LitItem) :
  data r1 !! "PY" = data r2 !! "PY" → get_year r1 = get_year r2.
Proof. unfold get_year, dict_get. by intros ->. Qed.

Lemma LitItem_eq_ret (r1 r2 : LitItem) t1 t2 y1 y2 :
  get_title r1 = Ret t1 → get_title r2 = Ret t2 →
  get_year r1 = Ret y1 → get_year r2 = Ret y2 →
  LitItem_eq r1 r2 = Ret (bool_decide (t1 = t2 ∧ y1 = y2)).
Proof.
  intros Ht1 Ht2 Hy1 Hy2. unfold LitItem_eq. rewrite Ht1, Ht2. simpl.
  destruct (String.eqb_spec t1 t2) as [->|Hne].
  - rewrite Hy1, Hy2. simpl. f_equal.
    destruct (String.eqb_spec y1 y2) as [->|Hney].
    + by rewrite bool_decide_eq_true_2.
    + rewrite bool_decide_eq_false_2; [done|]. intros [_ ?]. done.
  - rewrite bool_decide_eq_false_2; [done|]. intros [? _]. done.
Qed.

(** C1.  On Records whose title entry is a string (every Record the
    constructor builds: [constructed_has_str_title]) the comparison [==]
    returns; it returns [True] exactly when the two derived titles are equal
    and the two derived years are equal; and two field maps that agree on
    every tag other than the author tags [A1] and [A2] give Records that
    compare equal. *)
Theorem LitItem_eq_title_year (r1 r2 : LitItem)
    (H1 : has_str_title r1) (H2 : has_str_title r2) :
  (∃ b, LitItem_eq r1 r2 = Ret b) ∧
  (LitItem_eq r1 r2 = Ret true ↔
     get_title r1 = get_title r2 ∧ get_year r1 = get_year r2) ∧
  ((∀ k, k ≠ "A1" → k ≠ "A2" → data r1 !! k = data r2 !! k) →
     LitItem_eq r1 r2 = Ret true).
Proof.
  destruct (get_title_ret r1 H1) as [t1 Ht1], (get_title_ret r2 H2) as [t2 Ht2].
  destruct (get_year_ret r1) as [y1 Hy1], (get_year_ret r2) as [y2 Hy2].
  rewrite (LitItem_eq_ret r1 r2 t1 t2 y1 y2), Ht1, Ht2, Hy1, Hy2 by done.
  split; [eauto|]. split.
  - split.
    + intros [= H%bool_decide_eq_true]. destruct H as [-> ->]. done.
    + intros [[= ->] [= ->]]. by rewrite bool_decide_eq_true_2.
  - intros Hagree. rewrite bool_decide_eq_true_2; [done|].
    assert (get_title r1 = get_title r2) as Ht
      by (apply get_title_lookup, Hagree; done).
    assert (get_year r1 = get_year r2) as Hy
      by (apply get_year_lookup, Hagree; done).
    rewrite Ht1, Ht2 in Ht. rewrite Hy1, Hy2 in Hy. split; congruence.
Qed.

Lemma LitItem_eq_title_year_witness :
  LitItem_eq (LitItem_ris entry_jane) (LitItem_ris entry_doe) = Ret true ∧
  LitItem_eq
    (mkLitItem (<["A1" := PyStr "Jane Doe"]> {["T1" := PyStr "Foo"]}))
    (mkLitItem (<["A1" := PyStr "Doe, J."]> {["T1" := PyStr "Foo"]}))
  = Ret true.
Proof.
  split.
  - pose proof (LitItem_eq_title_year (LitItem_ris entry_jane) (LitItem_ris entry_doe)
                  (LitItem_ris_has_str_title _) (LitItem_ris_has_str_title _))
      as [_ [Hiff _]].
    apply Hiff. split; vm_compute; reflexivity.
  - refine (proj2 (proj2 (LitItem_eq_title_year _ _ _ _)) _).
    + unfold has_str_title. simpl. by simplify_map_eq.
    + unfold has_str_title. simpl. by simplify_map_eq.
    + intros k Hk1 Hk2. simpl. by rewrite !lookup_insert_ne.
Defined.

(** ** Missing fields of a tagged-field entry *)

Lemma get_author_ret (r : LitItem) :
  data r !! "A1" ≠ Some PyNone → data r !! "A2" ≠ Some PyNone →
  ∃ a, get_author r = Ret a.
Proof.
  unfold get_author, dict_get. intros H1 H2.
  destruct (data r !! "A1") as [[|a1]|]; [done| |]; simpl;
    try (destruct (negb _); [|by eauto]);
    (destruct (data r !! "A2") as [[|a2]|]; [done| |]; simpl; eauto).
Qed.

Lemma all_str_not_None d k : all_str d → d !! k ≠ Some PyNone.
Proof. intros Hd H. destruct (Hd _ _ H) as [s Hs]. discriminate. Qed.

(** C2, counterexample.  The entry has no [PY] tag and the year accessor
    returns, but the string it returns is [kein Jahr], not [no year]. *)
Lemma ris_missing_year_not_no_year :
  extract_ris "T1  - Foo" !! "PY" = None ∧
  get_year (LitItem_ris "T1  - Foo") = Ret "kein Jahr" ∧
  get_year (LitItem_ris "T1  - Foo") ≠ Ret "no year".
Proof. vm_compute. repeat split; discriminate. Qed.

(** C2, amended.  For every tagged-field entry: when its field map has no
    [PY] tag the year accessor returns the sentinel [kein Jahr]; no accessor
    raises, with or without a [PY] tag; when the field map has no [T1] the
    title is [kein Titel], and when it has neither [A1] nor [A2] the author
    is [kein Autor]. *)
Theorem ris_missing_fields (text : string) :
  (extract_ris text !! "PY" = None →
     get_year (LitItem_ris text) = Ret "kein Jahr") ∧
  (∃ y, get_year (LitItem_ris text) = Ret y) ∧
  (∃ t, get_title (LitItem_ris text) = Ret t) ∧
  (∃ a, get_author (LitItem_ris text) = Ret a) ∧
  (extract_ris text !! "T1" = None →
     get_title (LitItem_ris text) = Ret "kein Titel") ∧
  (extract_ris text !! "A1" = None → extract_ris text !! "A2" = None →
     get_author (LitItem_ris text) = Ret "kein Autor").
Proof.
  pose proof (extract_ris_lines_all_str (Py.split Py.LF text)) as Hstr.
  fold (extract_ris text) in Hstr.
  split; [|split; [|split; [|split; [|split]]]].
  - intros HPY. unfold get_year, dict_get. simpl. by rewrite HPY.
  - apply get_year_ret.
  - apply get_title_ret, LitItem_ris_has_str_title.
  - apply get_author_ret; simpl; by apply all_str_not_None.
  - intros HT1. unfold get_title, dict_get. simpl. by rewrite HT1.
  - intros HA1 HA2. unfold get_author, dict_get. simpl. by rewrite HA1, HA2.
Qed.

Lemma ris_missing_fields_witness :
  get_year (LitItem_ris "T1  - Foo") = Ret "kein Jahr" ∧
  get_title (LitItem_ris "PY  - 2020") = Ret "kein Titel" ∧
  get_author (LitItem_ris "PY  - 2020") = Ret "kein Autor".
Proof.
  split; [|split].
  - refine (proj1 (ris_missing_fields "T1  - Foo") _). vm_compute. reflexivity.
  - refine (proj1 (proj2 (proj2 (proj2 (proj2
              (ris_missing_fields "PY  - 2020"))))) _).
    vm_compute. reflexivity.
  - refine (proj2 (proj2 (proj2 (proj2 (proj2
              (ris_missing_fields "PY  - 2020"))))) _ _);
      vm_compute; reflexivity.
Defined.

(** ** The author accessor *)

(** C6, counterexample.  The entry has no primary author and a secondary
    author field that is empty once normalised; the accessor returns the
    empty string, not a sentinel. *)
Lemma get_author_blank_secondary :
  data (LitItem_ris "A2  - ") !! "A1" = None ∧
  data (LitItem_ris "A2  - ") !! "A2" = Some (PyStr " ") ∧
  Py.strip (Py.replace Py.LF " " " ") = "" ∧
  get_author (LitItem_ris "A2  - ") = Ret "" ∧
  get_author (LitItem_ris "A2  - ") ≠ Ret "no author" ∧
  get_author (LitItem_ris "A2  - ") ≠ Ret "kein Autor".
Proof. vm_compute. repeat split; discriminate. Qed.

(** C6, amended.  On a Record whose author entries are strings or absent:
    the accessor returns the primary author field, line feeds replaced by
    spaces and trimmed, when that value is not empty; otherwise the secondary
    author field with the same normalisation when the field is present, be
    the value empty or not; otherwise, the secondary field being absent, the
    sentinel [kein Autor]. *)
Theorem get_author_cases (r : LitItem)
    (H1 : data r !! "A1" ≠ Some PyNone) (H2 : data r !! "A2" ≠ Some PyNone) :
  let norm s := Py.strip (Py.replace Py.LF " " s) in
  let primary := match data r !! "A1" with Some (PyStr a1) => norm a1 | _ => "" end in
  (primary ≠ "" → get_author r = Ret primary) ∧
  (primary = "" → ∀ a2, data r !! "A2" = Some (PyStr a2) →
     get_author r = Ret (norm a2)) ∧
  (primary = "" → data r !! "A2" = None → get_author r = Ret "kein Autor").
Proof.
  intros norm primary. subst primary norm. unfold get_author, dict_get.
  destruct (data r !! "A1") as [[|a1]|]; [done| |]; simpl.
  - destruct (Py.strip (Py.replace Py.LF " " a1)) as [|c s] eqn:E; simpl.
    + split; [done|]. split; [intros _ a2 ->|intros _ ->]; done.
    + split; [done|]. split; intros; done.
  - split; [done|]. split; [intros _ a2 ->|intros _ ->]; done.
Qed.

Lemma get_author_cases_witness :
  get_author (LitItem_ris entry_jane) = Ret "Jane Doe" ∧
  get_author (LitItem_ris "A2  - Doe, J.") = Ret "Doe, J." ∧
  get_author (LitItem_ris "T1  - Foo") = Ret "kein Autor".
Proof.
  split; [|split].
  - refine (proj1 (get_author_cases (LitItem_ris entry_jane) _ _) _);
      vm_compute; discriminate.
  - refine (proj1 (proj2 (get_author_cases (LitItem_ris "A2  - Doe, J.") _ _))
              _ " Doe, J." _);
      vm_compute; try discriminate; reflexivity.
  - refine (proj2 (proj2 (get_author_cases (LitItem_ris "T1  - Foo") _ _)) _ _);
      vm_compute; try discriminate; reflexivity.
Defined.

(** ** The multi-line accumulation helper *)

Lemma accumulate_loop_from fuel lines i acc :
  length lines - i < fuel →
  accumulate_loop fuel lines i acc = accumulate_from (drop i lines) acc.
Proof.
  revert i acc. induction fuel as [|fuel IH]; intros i acc Hfuel; [lia|].
  simpl. destruct (lines !! i) as [l|] eqn:Hl.
  - pose proof (lookup_lt_Some _ _ _ Hl) as Hlt.
    rewrite (drop_S _ _ _ Hl). simpl.
    destruct (Py.truthy (Py.strip l)); simpl; [|done].
    replace (i <? length lines)%nat with true
      by (symmetry; apply Nat.ltb_lt; done).
    apply IH. lia.
  - rewrite drop_ge; [done|]. by apply lookup_ge_None.
Qed.

Lemma accumulate_tricat_lines_from lines i :
  accumulate_tricat_lines lines i =
  acc <- accumulate_from (drop i lines) []; Ret (Py.join " " acc, length acc).
Proof.
  unfold accumulate_tricat_lines. rewrite accumulate_loop_from; [done|lia].
Qed.

Lemma accumulate_from_no_blank rest acc :
  Forall (λ l, Py.truthy (Py.strip l) = true) rest →
  accumulate_from rest acc = Raise IndexError.
Proof.
  intros H. revert acc. induction H as [|l rest Hl _ IH]; intros acc; simpl; [done|].
  rewrite Hl. apply IH.
Qed.

Lemma accumulate_from_blank pre b post acc :
  Forall (λ l, Py.truthy (Py.strip l) = true) pre →
  Py.strip b = "" →
  accumulate_from (pre ++ b :: post) acc = Ret (acc ++ (fragment <$> pre)).
Proof.
  intros H Hb. revert acc. induction H as [|l pre Hl _ IH]; intros acc; simpl.
  - rewrite Hb. simpl. by rewrite app_nil_r.
  - rewrite Hl, IH. by rewrite <- app_assoc.
Qed.

Lemma accumulate_from_has_fuel rest acc : accumulate_from rest acc ≠ OutOfFuel.
Proof.
  revert acc. induction rest as [|l rest IH]; intros acc; simpl; [done|].
  destruct (Py.truthy _); [apply IH|done].
Qed.

Lemma accumulate_from_length rest acc out :
  accumulate_from rest acc = Ret out → (length acc <= length out)%nat.
Proof.
  revert acc. induction rest as [|l rest IH]; intros acc; simpl; [done|].
  destruct (Py.truthy _).
  - intros H%IH. rewrite length_app in H. simpl in H. lia.
  - intros [= ->]. done.
Qed.

(** The helper never fails to stop; it returns when a blank line follows the
    cursor, with the fragments of the lines before it, and it raises
    [IndexError] when no blank line follows. *)
Lemma accumulate_tricat_lines_has_fuel lines i :
  accumulate_tricat_lines lines i ≠ OutOfFuel.
Proof.
  rewrite accumulate_tricat_lines_from.
  pose proof (accumulate_from_has_fuel (drop i lines) []) as H.
  destruct (accumulate_from _ _); simpl; done.
Qed.

Lemma accumulate_tricat_lines_blank before pre b post :
  Forall (λ l, Py.truthy (Py.strip l) = true) pre →
  Py.strip b = "" →
  accumulate_tricat_lines (before ++ pre ++ b :: post) (length before) =
  Ret (Py.join " " (fragment <$> pre), length pre).
Proof.
  intros Hpre Hb. rewrite accumulate_tricat_lines_from, drop_app_length.
  rewrite accumulate_from_blank by done. simpl. by rewrite length_fmap.
Qed.

Lemma accumulate_tricat_lines_no_blank before rest :
  Forall (λ l, Py.truthy (Py.strip l) = true) rest →
  accumulate_tricat_lines (before ++ rest) (length before) = Raise IndexError.
Proof.
  intros H. rewrite accumulate_tricat_lines_from, drop_app_length.
  by rewrite accumulate_from_no_blank.
Qed.

(** C4.  The file ends with the labelled line; the helper consumes it, then
    reads [lines[1]] before it compares the cursor with the line count. *)
Theorem accumulate_tricat_lines_end_of_input :
  accumulate_tricat_lines ["Haupttitel Bar" +:+ Py.LF] 0 = Raise IndexError.
Proof. vm_compute. reflexivity. Qed.

(** ** The fixed-field reader *)

Lemma prefix_cons c p s :
  String.prefix (String c p) s = true → ∃ s', s = String c s'.
Proof.
  destruct s as [|b s']; simpl; [done|].
  destruct (ascii_dec c b) as [->|]; [eauto|done].
Qed.

Lemma rstrip_nonblank c s :
  Py.isspace c = false → Py.truthy (Py.rstrip (String c s)) = true.
Proof. intros Hc. simpl. rewrite Hc. by destruct (Py.rstrip s). Qed.

(** A line that carries a label is not blank. *)
Lemma labelled_nonblank l c p :
  Py.isspace c = false →
  Py.startswith (Py.lstrip l) (String c p) = true →
  Py.truthy (Py.strip l) = true.
Proof.
  intros Hc [s' Hs]%prefix_cons. unfold Py.strip. rewrite Hs.
  by apply rstrip_nonblank.
Qed.

(** From a line that is not blank the helper consumes at least that line. *)
Lemma accumulate_tricat_lines_offset lines i l r :
  lines !! i = Some l → Py.truthy (Py.strip l) = true →
  accumulate_tricat_lines lines i = Ret r → (1 <= r.2)%nat.
Proof.
  intros Hl Hnb. rewrite accumulate_tricat_lines_from, (drop_S _ _ _ Hl). simpl.
  rewrite Hnb. destruct (accumulate_from _ _) as [out| |] eqn:E; simpl; try done.
  intros [= <-]. simpl. apply accumulate_from_length in E. simpl in E. lia.
Qed.

Local Ltac label_step IH Hl Hfuel E :=
  let r := fresh "r" in
  let Er := fresh "Er" in
  destruct (accumulate_tricat_lines _ _) as [r| |] eqn:Er; simpl;
  [ apply IH;
    assert (Py.truthy (Py.strip _) = true) as Hnb
      by (eapply labelled_nonblank; [|exact E]; reflexivity);
    pose proof (accumulate_tricat_lines_offset _ _ _ _ Hl Hnb Er); lia
  | done
  | by apply accumulate_tricat_lines_has_fuel in Er ].

(** The scan never needs more fuel than lines remain. *)
Lemma read_tricat_loop_has_fuel fuel lines i cd items :
  length lines - i < fuel → read_tricat_loop fuel lines i cd items ≠ OutOfFuel.
Proof.
  revert i cd items. induction fuel as [|fuel IH]; intros i cd items Hfuel; [lia|].
  simpl. destruct (i <? length lines)%nat eqn:Hi; [|done].
  apply Nat.ltb_lt in Hi.
  destruct (lines !! i) as [l|] eqn:Hl; [|done].
  destruct (Py.startswith (Py.lstrip l) "Jahr") eqn:E1; [apply IH; lia|].
  destruct (Py.startswith (Py.lstrip l) "Haupttitel") eqn:E2;
    [label_step IH Hl Hfuel E2|].
  destruct (Py.startswith (Py.lstrip l) "Titelzusatz") eqn:E3;
    [label_step IH Hl Hfuel E3|].
  destruct (Py.startswith (Py.lstrip l) "1. Person") eqn:E4;
    [label_step IH Hl Hfuel E4|].
  apply IH. lia.
Qed.

Lemma read_tricat_file_has_fuel lines : read_tricat_file lines ≠ OutOfFuel.
Proof. apply read_tricat_loop_has_fuel. lia. Qed.



Lemma read_tricat_loop_unlabelled fuel lines i cd items :
  length lines - i < fuel → Forall unlabelled lines →
  read_tricat_loop fuel lines i cd items = Ret (items ++ [LitItem_tricat cd]).
Proof.
  intros Hfuel Hall. revert i Hfuel.
  induction fuel as [|fuel IH]; intros i Hfuel; [lia|].
  simpl. destruct (i <? length lines)%nat eqn:Hi; [|done].
  apply Nat.ltb_lt in Hi.
  destruct (lines !! i) as [l|] eqn:Hl.
  - rewrite Forall_lookup in Hall. destruct (Hall _ _ Hl) as (-> & -> & -> & ->).
    apply IH. lia.
  - apply lookup_ge_None in Hl. lia.
Qed.

(** An input without any label line gives one Record, built from the empty
    working field set. *)
Lemma read_tricat_file_unlabelled lines :
  Forall unlabelled lines → read_tricat_file lines = Ret [LitItem_tricat ∅].
Proof. intros H. apply (read_tricat_loop_unlabelled _ _ 0 ∅ []); [lia|done]. Qed.

(** C5.  The input is empty, or has no label line.  The scan ends, and the
    empty working field set is committed as the one Record; its title
    accessor returns the empty string and its year accessor the sentinel, and
    its author accessor raises: the field map holds [None] under [A1]. *)
Theorem read_tricat_file_empty_entry :
  read_tricat_file [] = Ret [LitItem_tricat ∅] ∧
  read_tricat_file ["Katalogauszug" +:+ Py.LF] = Ret [LitItem_tricat ∅] ∧
  data (LitItem_tricat ∅) !! "A1" = Some PyNone ∧
  get_title (LitItem_tricat ∅) = Ret "" ∧
  get_year (LitItem_tricat ∅) = Ret "kein Jahr" ∧
  get_author (LitItem_tricat ∅) = Raise AttributeError.
Proof. vm_compute. repeat split. Qed.

(** C3, counterexample.  With the author line first the one Record has the
    year and the title of the example, and its author still carries the
    label: only the text [1. Person/Fam.] is removed from an author line.
    With the author line last, the title block runs on to the blank line and
    takes the author line with it, and the Record has no author entry.  With
    the three lines and no blank line the title block runs off the end of
    the input. *)
Lemma read_tricat_file_label_kept :
  (∃ r, read_tricat_file block_author_first = Ret [r] ∧
        get_year r = Ret "2019" ∧ get_title r = Ret "Bar" ∧
        get_author r = Ret "1. Person Smith, J." ∧
        get_author r ≠ Ret "Smith, J.") ∧
  (∃ r, read_tricat_file block_author_last = Ret [r] ∧
        get_year r = Ret "2019" ∧
        get_title r = Ret "Bar 1. Person Smith, J." ∧
        get_author r = Raise AttributeError) ∧
  read_tricat_file block_bare = Raise IndexError.
Proof.
  split; [|split; [|vm_compute; reflexivity]].
  - exists (LitItem_tricat
      {[ "author" := "1. Person Smith, J."; "year" := "2019"; "title" := "Bar" ]}).
    vm_compute. repeat split. discriminate.
  - exists (LitItem_tricat
      {[ "year" := "2019"; "title" := "Bar 1. Person Smith, J." ]}).
    vm_compute. repeat split.
Qed.

(** C3, amended.  The entry block is the author line with the label
    [1. Person/Fam.], a blank line, the year line, the title line and a blank
    line.  The reader returns one Record, with year [2019], title [Bar] and
    author [Smith, J.]. *)
Theorem read_tricat_file_example :
  ∃ r, read_tricat_file block_full_label = Ret [r] ∧
       get_year r = Ret "2019" ∧ get_title r = Ret "Bar" ∧
       get_author r = Ret "Smith, J.".
Proof.
  exists (LitItem_tricat
    {[ "author" := "Smith, J."; "year" := "2019"; "title" := "Bar" ]}).
  vm_compute. repeat split.
Qed.

(** ** A tag that occurs more than once in a tagged-field entry *)

Lemma re_match_tag_truthy l key datum :
  Py.re_match_tag l = Some (key, datum) → Py.truthy key = true.
Proof.
  unfold Py.re_match_tag.
  destruct l as [|c0 [|c1 [|c2 [|c3 [|c4 rest]]]]]; try done.
  destruct (_ && _); [|done]. by intros [= <- _].
Qed.

(** Lines without a tag extend the current field and leave the map alone. *)
Lemma extract_ris_fold_continuation conts d ck cd :
  Forall (λ l, Py.re_match_tag l = None) conts →
  foldl extract_ris_step (d, ck, cd) conts =
  (d, ck, foldl (λ acc l, acc +:+ Py.LF +:+ l) cd conts).
Proof.
  intros H. revert cd. induction H as [|l conts Hl _ IH]; intros cd; simpl; [done|].
  rewrite Hl. apply IH.
Qed.

(** Once a field is stored under [key] and the scan has left it, lines that
    do not start a field with that tag cannot change what is stored. *)
Lemma extract_ris_fold_keeps post key v st :
  Forall (λ l, ∀ w, Py.re_match_tag l ≠ Some (key, w)) post →
  st.1.1 !! key = Some v → st.1.2 ≠ key →
  (foldl extract_ris_step st post).1.1 !! key = Some v ∧
  (foldl extract_ris_step st post).1.2 ≠ key.
Proof.
  intros H. revert st.
  induction H as [|l post Hl _ IH]; intros st Hv Hck; simpl; [done|].
  apply IH; destruct st as [[d ck] cd]; simpl in *;
    destruct (Py.re_match_tag l) as [[k w]|] eqn:E; simpl; try done.
  - destruct (Py.truthy ck); [|done]. by rewrite lookup_insert_ne.
  - intros ->. by apply (Hl w).
Qed.

(** C10.  A line starts a field with tag [key] and value [datum]; lines
    without a tag continue it; the field ends at the next tag line or at the
    end of the chunk; no later line starts a field with the same tag.  Then
    the field map holds under [key] the text of this field, whatever the lines
    before it were: an earlier field with the same tag is overwritten. *)
Theorem extract_ris_last_tag_wins (pre conts post : list string)
    (hd key datum : string)
    (Hhd : Py.re_match_tag hd = Some (key, datum))
    (Hconts : Forall (λ l, Py.re_match_tag l = None) conts)
    (Hend : ∀ l post', post = l :: post' → is_Some (Py.re_match_tag l))
    (Hlast : Forall (λ l, ∀ w, Py.re_match_tag l ≠ Some (key, w)) post) :
  extract_ris_lines (pre ++ hd :: conts ++ post) !! key =
  Some (PyStr (foldl (λ acc l, acc +:+ Py.LF +:+ l) datum conts)).
Proof.
  unfold extract_ris_lines. rewrite foldl_app. simpl. rewrite foldl_app.
  destruct (foldl extract_ris_step (∅, "", "") pre) as [[d0 ck0] cd0].
  unfold extract_ris_step at 3. rewrite Hhd.
  rewrite extract_ris_fold_continuation by done.
  set (d1 := if Py.truthy ck0 then _ else _).
  set (text := foldl _ datum conts).
  destruct post as [|l post].
  - simpl. by rewrite lookup_insert_eq.
  - simpl. destruct (Py.re_match_tag l) as [[k w]|] eqn:E;
      [|by destruct (Hend _ _ eq_refl) as [? [=]%(eq_trans (eq_sym E))]].
    rewrite (re_match_tag_truthy _ _ _ Hhd).
    apply Forall_cons in Hlast as [Hl Hlast].
    assert (k ≠ key) as Hk by (intros ->; by apply (Hl w)).
    pose proof (extract_ris_fold_keeps post key (PyStr text)
                  (<[key := PyStr text]> d1, k, w) Hlast) as Hkeep.
    simpl in Hkeep. rewrite lookup_insert_eq in Hkeep.
    destruct (Hkeep eq_refl Hk) as [Hv Hne].
    destruct (foldl _ _ post) as [[d ck] cd]. simpl in *.
    by rewrite lookup_insert_ne.
Qed.

(** The year tag twice: the Record has the later year. *)
Lemma extract_ris_last_tag_wins_witness :
  extract_ris entry_two_years !! "PY" = Some (PyStr " 2020") ∧
  get_year (LitItem_ris entry_two_years) = Ret "2020".
Proof.
  split.
  - change (extract_ris_lines (["PY  - 1999"] ++ "PY  - 2020" :: [] ++ ["T1  - Foo"])
              !! "PY"
            = Some (PyStr (foldl (λ acc l, acc +:+ Py.LF +:+ l) " 2020" []))).
    apply (extract_ris_last_tag_wins ["PY  - 1999"] [] ["T1  - Foo"]
             "PY  - 2020" "PY" " 2020").
    + reflexivity.
    + constructor.
    + intros l post' [= <- <-]. vm_compute. eauto.
    + repeat constructor. intros w. vm_compute. discriminate.
  - vm_compute. reflexivity.
Defined.

(** ** Deduplication *)

Lemma LitItem_eq_key (r1 r2 : LitItem) :
  has_str_title r1 → has_str_title r2 →
  LitItem_eq r1 r2 = Ret (bool_decide (eq_key r1 = eq_key r2)).
Proof.
  intros H1 H2. unfold eq_key.
  destruct (get_title_ret r1 H1) as [t1 Ht1], (get_title_ret r2 H2) as [t2 Ht2].
  destruct (get_year_ret r1) as [y1 Hy1], (get_year_ret r2) as [y2 Hy2].
  rewrite (LitItem_eq_ret r1 r2 t1 t2 y1 y2), Ht1, Ht2, Hy1, Hy2 by done.
  f_equal. apply bool_decide_ext. split.
  - intros [-> ->]. done.
  - intros [= -> ->]. done.
Qed.

Section first_occurrences.
Context {A K : Type} `{EqDecision K} (k : A → K).

Lemma firsts_of_nil : firsts_of k [] [].
Proof.
  split; [constructor|]. split; [constructor|]. intros x Hx. by apply elem_of_nil in Hx.
Qed.

Lemma firsts_of_old seen acc acc' x x' :
  firsts_of k seen acc → acc ⊆ acc' → x' ∈ seen →
  ∃ i y, y ∈ acc' ∧ (seen ++ [x]) !! i = Some y ∧ k y = k x' ∧
         ∀ j z, j < i → (seen ++ [x]) !! j = Some z → k z ≠ k x'.
Proof.
  intros (_ & _ & H3) Hsub Hx'.
  destruct (H3 x' Hx') as (i & y & Hy & Hi & Hk & Hfirst).
  pose proof (lookup_lt_Some _ _ _ Hi) as Hlt.
  exists i, y. split; [by apply Hsub|]. split; [by rewrite lookup_app_l|].
  split; [done|]. intros j z Hj Hz. rewrite lookup_app_l in Hz by lia. eauto.
Qed.

Lemma firsts_of_step seen acc x :
  firsts_of k seen acc →
  firsts_of k (seen ++ [x])
    (if bool_decide (k x ∈ k <$> acc) then acc else acc ++ [x]).
Proof.
  intros Hinv. pose proof Hinv as (H1 & H2 & H3). case_bool_decide as Hin.
  - split; [done|]. split; [by apply sublist_inserts_r|].
    intros x' [Hx'|Hx']%elem_of_app.
    + by apply (firsts_of_old seen acc).
    + apply list_elem_of_singleton in Hx' as ->.
      apply list_elem_of_fmap in Hin as (y0 & Hk0 & Hy0).
      assert (y0 ∈ seen) as Hy0' by (by apply (elem_of_sublist acc)).
      rewrite Hk0. by apply (firsts_of_old seen acc).
  - split; [|split].
    + rewrite fmap_app. simpl. apply NoDup_app. split; [done|].
      split; [|apply NoDup_singleton].
      intros kx Hkx ->%list_elem_of_singleton. done.
    + by apply sublist_app.
    + intros x' [Hx'|Hx']%elem_of_app.
      * apply (firsts_of_old seen acc); [done| |done].
        intros y Hy. apply elem_of_app. by left.
      * apply list_elem_of_singleton in Hx' as ->.
        exists (length seen), x. split; [apply elem_of_app; right; by left|].
        split; [by rewrite lookup_app_r, Nat.sub_diag by lia|]. split; [done|].
        intros j z Hj Hz Hkz. rewrite lookup_app_l in Hz by done.
        destruct (H3 z) as (i & y & Hy & _ & Hky & _);
          [by eapply list_elem_of_lookup_2|].
        apply Hin. rewrite <- Hkz, <- Hky. by apply list_elem_of_fmap_2.
Qed.

Lemma unique_by_firsts_of items seen acc :
  firsts_of k seen acc → firsts_of k (seen ++ items) (unique_by k items acc).
Proof.
  revert seen acc. induction items as [|x rest IH]; intros seen acc Hinv; simpl.
  - by rewrite app_nil_r.
  - rewrite cons_middle, app_assoc. by apply IH, firsts_of_step.
Qed.

End first_occurrences.

Lemma list_contains_key (x : LitItem) (acc : list LitItem) :
  has_str_title x → Forall has_str_title acc →
  list_contains x acc = Ret (bool_decide (eq_key x ∈ eq_key <$> acc)).
Proof.
  intros Hx Hacc. induction Hacc as [|y acc Hy _ IH]; simpl.
  - done.
  - rewrite (LitItem_eq_key y x) by done. simpl.
    destruct (decide (eq_key y = eq_key x)) as [Hk|Hk].
    + rewrite (bool_decide_eq_true_2 _ Hk), bool_decide_eq_true_2; [done|].
      rewrite Hk. by left.
    + rewrite (bool_decide_eq_false_2 _ Hk), IH. f_equal.
      apply bool_decide_ext. rewrite elem_of_cons.
      split; [by right|]. intros [Heq|?]; [by destruct Hk|done].
Qed.

Lemma unique_loop_by (items acc : list LitItem) :
  Forall has_str_title items → Forall has_str_title acc →
  unique_loop items acc = Ret (unique_by eq_key items acc).
Proof.
  intros Hitems. revert acc.
  induction Hitems as [|x rest Hx _ IH]; intros acc Hacc; simpl; [done|].
  rewrite list_contains_key by done. simpl. apply IH.
  case_bool_decide; [done|]. apply Forall_app. split; [done|]. by constructor.
Qed.

Lemma Bibliography_new_fresh (st : gmap nat (list LitItem)) :
  st !! (Bibliography_new st).1 = None.
Proof. simpl. apply not_elem_of_dom, is_fresh. Qed.

(** C7.  [unique] on a collection whose Records have a string title (every
    Record the constructor builds) returns a new object and leaves every
    object of the store as it was, the collection it was called on included.
    The new list has no two Records that compare equal; it is a sublist of
    the old one, so the kept Records are in their old order; and every Record
    of the old list is represented in the new list by the first Record of the
    old list that compares equal to it. *)
Theorem unique_first_occurrences (self : nat) (st : gmap nat (list LitItem))
    (items : list LitItem)
    (Hself : st !! self = Some items) (Hwf : Forall has_str_title items) :
  ∃ bib u,
    unique self st = Ret (bib, <[bib := u]> st) ∧
    st !! bib = None ∧
    <[bib := u]> st !! self = Some items ∧
    (∀ i j x y, u !! i = Some x → u !! j = Some y →
       LitItem_eq x y = Ret true → i = j) ∧
    sublist u items ∧
    (∀ x, x ∈ items →
       ∃ i y, y ∈ u ∧ items !! i = Some y ∧ LitItem_eq y x = Ret true ∧
              ∀ j z, j < i → items !! j = Some z → LitItem_eq z x ≠ Ret true).
Proof.
  pose proof (unique_by_firsts_of eq_key items [] [] (firsts_of_nil eq_key))
    as (Hnd & Hsub & Hfirst).
  simpl in Hsub, Hfirst.
  pose proof (Bibliography_new_fresh st) as Hfresh. simpl in Hfresh.
  exists (fresh (dom st)), (unique_by eq_key items []).
  assert (Forall has_str_title (unique_by eq_key items [])) as Hwfu.
  { apply Forall_forall. intros x Hx. rewrite Forall_forall in Hwf.
    by apply Hwf, (elem_of_sublist (unique_by eq_key items [])). }
  split; [|split; [done|split; [|split; [|split; [done|]]]]].
  - unfold unique, get_items. rewrite Hself. simpl.
    rewrite unique_loop_by by (done || constructor). simpl.
    unfold set_items. by rewrite insert_insert_eq.
  - rewrite lookup_insert_ne; [done|]. intros <-. congruence.
  - intros i j x y Hi Hj Heq. rewrite Forall_lookup in Hwfu.
    rewrite (LitItem_eq_key x y) in Heq by eauto.
    injection Heq as Heq%bool_decide_eq_true.
    apply (NoDup_lookup _ i j (eq_key x) Hnd); rewrite list_lookup_fmap.
    + by rewrite Hi.
    + by rewrite Hj, Heq.
  - intros x Hx. destruct (Hfirst x Hx) as (i & y & Hy & Hi & Hk & Hno).
    rewrite Forall_forall in Hwf.
    exists i, y. split; [done|]. split; [done|]. split.
    + rewrite LitItem_eq_key; [|by eapply Hwf, list_elem_of_lookup_2|by apply Hwf].
      f_equal. by apply bool_decide_eq_true_2.
    + intros j z Hj Hz. rewrite LitItem_eq_key;
        [|by eapply Hwf, list_elem_of_lookup_2|by apply Hwf].
      intros [= Hb%bool_decide_eq_true]. by apply (Hno j z).
Qed.

Lemma unique_first_occurrences_witness :
  ∃ bib u,
    unique 0 {[0 := three_items]} = Ret (bib, <[bib := u]> {[0 := three_items]}) ∧
    ({[0 := three_items]} : gmap nat (list LitItem)) !! bib = None ∧
    sublist u three_items.
Proof.
  destruct (unique_first_occurrences 0 {[0 := three_items]} three_items)
    as (bib & u & Hrun & Hnew & _ & _ & Hsub & _).
  - reflexivity.
  - repeat constructor; apply LitItem_ris_has_str_title.
  - exists bib, u. repeat split; assumption.
Defined.

(** ** Sorting *)

Lemma str_lt_not_le a b : Py.str_lt a b = false → str_le b a.
Proof.
  unfold Py.str_lt, str_le, String.ltb, String.leb.
  rewrite (String.compare_antisym b a). by destruct (String.compare a b).
Qed.

Lemma str_lt_le a b : Py.str_lt a b = true → str_le a b.
Proof.
  unfold Py.str_lt, str_le, String.ltb, String.leb.
  by destruct (String.compare a b).
Qed.

Lemma str_lt_irrefl a : Py.str_lt a a = false.
Proof.
  unfold Py.str_lt, String.ltb. pose proof (String.compare_antisym a a) as H.
  by destruct (String.compare a a).
Qed.

Section sorted.
Context {A : Type}.

Lemma sorted_insert_perm (x : string * A) l : Py.sorted_insert x l ≡ₚ x :: l.
Proof.
  induction l as [|y l IH]; simpl; [done|].
  destruct (Py.str_lt y.1 x.1); [|done].
  rewrite IH. apply Permutation_swap.
Qed.

Lemma sorted_keyed_perm (l : list (string * A)) : Py.sorted_keyed l ≡ₚ l.
Proof.
  induction l as [|x l IH]; simpl; [done|].
  by rewrite sorted_insert_perm, IH.
Qed.

Lemma sorted_insert_HdRel (x y : string * A) l :
  str_le y.1 x.1 → HdRel (λ a b, str_le a.1 b.1) y l →
  HdRel (λ a b, str_le a.1 b.1) y (Py.sorted_insert x l).
Proof.
  intros Hyx Hhd. destruct l as [|z l]; simpl; [by constructor|].
  destruct (Py.str_lt z.1 x.1); constructor; [|done].
  by inversion Hhd.
Qed.

Lemma sorted_insert_Sorted (x : string * A) l :
  Sorted (λ a b, str_le a.1 b.1) l →
  Sorted (λ a b, str_le a.1 b.1) (Py.sorted_insert x l).
Proof.
  induction 1 as [|y l Hl IH Hhd]; simpl; [by repeat constructor|].
  destruct (Py.str_lt y.1 x.1) eqn:E.
  - constructor; [done|]. by apply sorted_insert_HdRel; [apply str_lt_le|].
  - constructor; [by constructor|]. constructor. by apply str_lt_not_le.
Qed.

Lemma sorted_keyed_Sorted (l : list (string * A)) :
  Sorted (λ a b, str_le a.1 b.1) (Py.sorted_keyed l).
Proof.
  induction l as [|x l IH]; simpl; [constructor|]. by apply sorted_insert_Sorted.
Qed.

(** Stability: the elements with one key keep their order. *)
Lemma sorted_insert_stable (k : string) (x : string * A) l :
  filter (λ p, p.1 = k) (Py.sorted_insert x l) = filter (λ p, p.1 = k) (x :: l).
Proof.
  induction l as [|y l IH]; simpl; [done|].
  destruct (Py.str_lt y.1 x.1) eqn:E; [|done].
  rewrite !filter_cons, IH, !filter_cons.
  destruct (decide (x.1 = k)) as [Hx|Hx]; [|done].
  destruct (decide (y.1 = k)) as [Hy|Hy]; [|done].
  rewrite Hx, Hy, str_lt_irrefl in E. done.
Qed.

Lemma sorted_keyed_stable (k : string) (l : list (string * A)) :
  filter (λ p, p.1 = k) (Py.sorted_keyed l) = filter (λ p, p.1 = k) l.
Proof.
  induction l as [|x l IH]; simpl; [done|].
  by rewrite sorted_insert_stable, !filter_cons, IH.
Qed.

(** From the decorated list back to the elements. *)
Variable key : A → outcome string.

Lemma keyed_mapM (l : list A) :
  Forall (λ x, ∃ k, key x = Ret k) l →
  ∃ ks, outcome_mapM (λ x, k <- key x; Ret (k, x)) l = Ret ks ∧
        ks.*2 = l ∧ Forall (keyed key) ks.
Proof.
  induction 1 as [|x l [k Hk] _ (ks & Hks & Hsnd & Hall)]; simpl.
  - exists []. by repeat split.
  - exists ((k, x) :: ks). rewrite Hk. simpl. rewrite Hks. simpl.
    split; [done|]. split; [by f_equal|]. by constructor.
Qed.

Lemma keyed_filter (k : string) (ks : list (string * A)) :
  Forall (keyed key) ks →
  (filter (λ p, p.1 = k) ks).*2 = filter (λ x, key x = Ret k) ks.*2.
Proof.
  induction 1 as [|p ks Hp _ IH]; simpl; [done|].
  rewrite !filter_cons. unfold keyed in Hp.
  destruct (decide (p.1 = k)) as [Hk|Hk].
  - rewrite decide_True by congruence. by rewrite fmap_cons, IH.
  - rewrite decide_False by congruence. done.
Qed.

Lemma keyed_Sorted (ks : list (string * A)) :
  Forall (keyed key) ks → Sorted (λ a b, str_le a.1 b.1) ks →
  Sorted (λ a b, ∃ ka kb, key a = Ret ka ∧ key b = Ret kb ∧ str_le ka kb) ks.*2.
Proof.
  intros Hall Hs. induction Hs as [|p ks Hs IH Hhd]; simpl; [constructor|].
  apply Forall_cons in Hall as [Hp Hall]. constructor; [by apply IH|].
  destruct Hhd as [|q ks' Hpq]; simpl; constructor.
  apply Forall_cons in Hall as [Hq _]. by exists p.1, q.1.
Qed.

(** [sorted] returns when the key of every element does; the result is a
    rearrangement of the list, its keys never decrease from one element to
    the next, and the elements with one key are in their old order. *)
Lemma sorted_spec (l : list A) :
  Forall (λ x, ∃ k, key x = Ret k) l →
  ∃ out, Py.sorted key l = Ret out ∧
    out ≡ₚ l ∧
    Sorted (λ a b, ∃ ka kb, key a = Ret ka ∧ key b = Ret kb ∧ str_le ka kb)
      out ∧
    ∀ k, filter (λ x, key x = Ret k) out = filter (λ x, key x = Ret k) l.
Proof.
  intros Hl. destruct (keyed_mapM l Hl) as (ks & Hks & Hsnd & Hall).
  assert (Forall (keyed key) (Py.sorted_keyed ks)) as Hall'.
  { by rewrite sorted_keyed_perm. }
  exists (Py.sorted_keyed ks).*2. unfold Py.sorted. rewrite Hks. simpl.
  split; [done|]. split; [|split].
  - by rewrite sorted_keyed_perm, Hsnd.
  - apply keyed_Sorted; [done|apply sorted_keyed_Sorted].
  - intros k. rewrite <- Hsnd, <- !keyed_filter by done.
    by rewrite sorted_keyed_stable.
Qed.

Lemma sorted_raises (l1 l2 : list A) x e :
  Forall (λ x, ∃ k, key x = Ret k) l1 → key x = Raise e →
  Py.sorted key (l1 ++ x :: l2) = Raise e.
Proof.
  intros Hl1 Hx. unfold Py.sorted.
  assert (outcome_mapM (λ x, k <- key x; Ret (k, x)) (l1 ++ x :: l2) = Raise e)
    as ->; [|done].
  induction Hl1 as [|y l1 [k Hk] _ IH]; simpl.
  - by rewrite Hx.
  - rewrite Hk. simpl. by rewrite IH.
Qed.

End sorted.

Lemma str_le_trans a b c : str_le a b → str_le b c → str_le a c.
Proof.
  unfold str_le. intros H1%Is_true_true H2%Is_true_true. apply Is_true_true.
  exact (transitivity (R := String.le) H1 H2).
Qed.

(** The keys never decrease from one Record to the next, hence from any
    Record to any later one. *)
Lemma Sorted_keys_strongly {A : Type} (key : A → outcome string) (l : list A) :
  Sorted (λ a b, ∃ ka kb, key a = Ret ka ∧ key b = Ret kb ∧ str_le ka kb) l →
  StronglySorted
    (λ a b, ∃ ka kb, key a = Ret ka ∧ key b = Ret kb ∧ str_le ka kb) l.
Proof.
  apply Sorted_StronglySorted.
  intros a b c (ka & kb & Ha & Hb & Hab) (kb' & kc & Hb' & Hc & Hbc).
  exists ka, kc. split; [done|]. split; [done|].
  rewrite Hb in Hb'. injection Hb' as <-. by apply (str_le_trans _ kb).
Qed.

(** [order_by] with one of the three field names, on a collection for whose
    Records the chosen accessor returns: a new object holds a rearrangement
    of the list, sorted by the accessor and stable; the store is otherwise
    as it was. *)
Lemma order_by_sorted (self : nat) (attr : string) (key : LitItem → outcome string)
    (st : gmap nat (list LitItem)) (items : list LitItem) :
  (attr, key) ∈ [("title", get_title); ("author", get_author); ("year", get_year)] →
  st !! self = Some items →
  Forall (λ r, ∃ k, key r = Ret k) items →
  ∃ bib out,
    order_by self attr st = Ret (bib, <[bib := out]> st) ∧
    st !! bib = None ∧
    <[bib := out]> st !! self = Some items ∧
    out ≡ₚ items ∧
    StronglySorted
      (λ a b, ∃ ka kb, key a = Ret ka ∧ key b = Ret kb ∧ str_le ka kb) out ∧
    ∀ k, filter (λ r, key r = Ret k) out = filter (λ r, key r = Ret k) items.
Proof.
  intros Hattr Hself Hkeys.
  destruct (sorted_spec key items Hkeys) as (out & Hrun & Hperm & Hsorted & Hstable).
  pose proof (Bibliography_new_fresh st) as Hfresh. simpl in Hfresh.
  exists (fresh (dom st)), out.
  split; [|split; [done|split; [|split; [done|split; [|done]]]]].
  - assert (order_by self attr st =
            (sorted_items <- Py.sorted key items;
             let '(bib, st1) := Bibliography_new st in
             Ret (bib, set_items bib sorted_items st1))) as ->.
    { unfold order_by, get_items. rewrite Hself.
      repeat (apply elem_of_cons in Hattr as [[= -> ->]|Hattr]; [done|]).
      by apply elem_of_nil in Hattr. }
    rewrite Hrun. simpl. unfold set_items. by rewrite insert_insert_eq.
  - rewrite lookup_insert_ne; [done|]. intros <-. congruence.
  - by apply Sorted_keys_strongly.
Qed.

Lemma order_by_invalid (self : nat) (attr : string) (st : gmap nat (list LitItem)) :
  attr ∉ ["title"; "author"; "year"] → order_by self attr st = Raise ValueError.
Proof.
  intros Hattr. unfold order_by.
  destruct (String.eqb_spec attr "title") as [->|_];
    [exfalso; apply Hattr; repeat constructor|].
  destruct (String.eqb_spec attr "author") as [->|_];
    [exfalso; apply Hattr; repeat constructor|].
  destruct (String.eqb_spec attr "year") as [->|_];
    [exfalso; apply Hattr; repeat constructor|].
  done.
Qed.

(** The title and year accessors return on every Record the constructor
    builds, so sorting by title or by year always succeeds. *)
Lemma order_by_title_keys (items : list LitItem) :
  Forall has_str_title items → Forall (λ r, ∃ k, get_title r = Ret k) items.
Proof. intros H. eapply Forall_impl; [exact H|]. intros r. apply get_title_ret. Qed.

Lemma order_by_year_keys (items : list LitItem) :
  Forall (λ r, ∃ k, get_year r = Ret k) items.
Proof. apply Forall_forall. intros r _. apply get_year_ret. Qed.

(** C8.  The collection holds the Record that the fixed-field reader builds
    from an input without an author line; sorting it by author raises, and
    so does not return a sorted collection.  (By title and by year the same
    collection is sorted: [order_by_sorted] with [order_by_title_keys] and
    [order_by_year_keys]; another field name raises [ValueError]:
    [order_by_invalid].) *)
Theorem order_by_author_raises :
  read_tricat_file ["Katalogauszug" +:+ Py.LF] = Ret [LitItem_tricat ∅] ∧
  order_by 0 "author" {[0 := [LitItem_tricat ∅]]} = Raise AttributeError ∧
  order_by 0 "publisher" {[0 := [LitItem_tricat ∅]]} = Raise ValueError.
Proof. vm_compute. repeat split. Qed.

(** ** The report *)

Lemma append_cons c (a b : string) : String c a +:+ b = String c (a +:+ b).
Proof. reflexivity. Qed.

Lemma append_assoc (a b c : string) : (a +:+ b) +:+ c = a +:+ (b +:+ c).
Proof.
  induction a as [|x a IH]; [done|]. by rewrite !append_cons, IH.
Qed.

Lemma append_empty_r (a : string) : a +:+ "" = a.
Proof. induction a as [|x a IH]; [done|]. by rewrite append_cons, IH. Qed.

Lemma concat_cons2 sep (a b : string) l :
  String.concat sep (a :: b :: l) = a +:+ sep +:+ String.concat sep (b :: l).
Proof. reflexivity. Qed.

(** Joining with line feeds leaves out the line feed after the last block. *)
Lemma join_blocks (blocks : list string) :
  blocks ≠ [] →
  Py.join Py.LF blocks +:+ Py.LF = String.concat "" ((λ b, b +:+ Py.LF) <$> blocks).
Proof.
  unfold Py.join. intros Hne. induction blocks as [|a [|b l] IH]; [done| |].
  - done.
  - rewrite concat_cons2, !append_assoc, IH by done.
    rewrite !fmap_cons, concat_cons2, !append_assoc. reflexivity.
Qed.

Lemma LitItem_str_relevant r row :
  relevant r row → LitItem_str r = Ret (entry_block row).
Proof. intros (Ha & Ht & Hy). unfold LitItem_str. by rewrite Ha, Ht, Hy. Qed.

Lemma mapM_str_relevant items rows :
  Forall2 relevant items rows →
  outcome_mapM LitItem_str items = Ret (entry_block <$> rows).
Proof.
  induction 1 as [|r row items rows Hr _ IH]; simpl; [done|].
  by rewrite (LitItem_str_relevant r row), IH.
Qed.

(** * Further properties *)

(** ** Trimming and replacing *)

Lemma chars_app (a b : string) : chars (a +:+ b) = chars a ++ chars b.
Proof.
  induction a as [|x a IH]; [done|]. rewrite append_cons. unfold chars in *.
  simpl. by rewrite IH.
Qed.

Lemma prefix_single c x s :
  String.prefix (String c "") (String x s) = bool_decide (c = x).
Proof.
  simpl. destruct (ascii_dec c x) as [->|Hne].
  - rewrite bool_decide_eq_true_2 by done. by destruct s.
  - by rewrite bool_decide_eq_false_2.
Qed.

(** Replacing every occurrence of one character leaves none behind, unless
    the replacement brings it. *)
Lemma replace_char_chars (c : ascii) (new s : string) (a : ascii) :
  a ∈ chars (Py.replace (String c "") new s) →
  a ∈ chars new ∨ (a ∈ chars s ∧ a ≠ c).
Proof.
  unfold Py.replace. induction s as [|x s IH]; [by intros ?%elem_of_nil|].
  cbn [Py.replace_go]. rewrite prefix_single. cbn [Py.may_replace andb].
  case_bool_decide as Hcx.
  - replace (String.length (String c "") - 1) with 0 by done.
    cbn [fmap option_fmap option_map].
    rewrite chars_app. intros [Ha|Ha]%elem_of_app; [by left|].
    destruct (IH Ha) as [?|[? ?]]; [by left|right]. split; [by right|done].
  - unfold chars at 1. simpl. intros [->|Ha]%elem_of_cons.
    + right. split; [by left|]. congruence.
    + destruct (IH Ha) as [?|[? ?]]; [by left|right]. split; [by right|done].
Qed.

Lemma lstrip_chars s a : a ∈ chars (Py.lstrip s) → a ∈ chars s.
Proof.
  induction s as [|x s IH]; [done|]. simpl. destruct (Py.isspace x); [|done].
  intros Ha%IH. unfold chars. simpl. by right.
Qed.

Lemma rstrip_chars s a : a ∈ chars (Py.rstrip s) → a ∈ chars s.
Proof.
  induction s as [|x s IH]; [done|]. simpl.
  destruct (Py.rstrip s) as [|y r] eqn:E.
  - destruct (Py.isspace x); [by intros ?%elem_of_nil|].
    unfold chars. simpl. intros [->|?%elem_of_nil]%elem_of_cons; [by left|done].
  - unfold chars in *. simpl. intros [->|Ha]%elem_of_cons; [by left|].
    right. by apply IH.
Qed.

Lemma strip_chars s a : a ∈ chars (Py.strip s) → a ∈ chars s.
Proof. unfold Py.strip. by intros ?%rstrip_chars%lstrip_chars. Qed.

Lemma lstrip_head s :
  Py.lstrip s = "" ∨ ∃ c u, Py.lstrip s = String c u ∧ Py.isspace c = false.
Proof.
  induction s as [|x s IH]; [by left|]. simpl.
  destruct (Py.isspace x) eqn:E; [done|]. right. eauto.
Qed.

Lemma rstrip_idemp s : Py.rstrip (Py.rstrip s) = Py.rstrip s.
Proof.
  induction s as [|x s IH]; [done|]. simpl.
  destruct (Py.rstrip s) as [|y r] eqn:E.
  - destruct (Py.isspace x) eqn:Ex; [done|]. simpl. by rewrite Ex.
  - change (Py.rstrip (String x (String y r))) with
      (match Py.rstrip (String y r) with
       | "" => if Py.isspace x then "" else String x ""
       | r' => String x r'
       end).
    by rewrite IH.
Qed.

Lemma rstrip_keeps_head c u :
  Py.isspace c = false → ∃ u', Py.rstrip (String c u) = String c u'.
Proof.
  intros Hc. simpl. rewrite Hc. destruct (Py.rstrip u); eauto.
Qed.

(** A trimmed string is trimmed. *)
Lemma strip_idemp s : Py.strip (Py.strip s) = Py.strip s.
Proof.
  unfold Py.strip. destruct (lstrip_head s) as [->|(c & u & -> & Hc)]; [done|].
  destruct (rstrip_keeps_head c u Hc) as [u' Hu]. rewrite Hu.
  simpl Py.lstrip. rewrite Hc, <- Hu. apply rstrip_idemp.
Qed.

(** ** What the accessors return *)

Local Ltac not_in_chars H :=
  unfold chars, line_feed, lbracket, rbracket in H; simpl in H;
  repeat (apply elem_of_cons in H as [H|H]; [discriminate|]);
  by apply elem_of_nil in H.

Lemma normalised_single_line (s : string) :
  let t := Py.strip (Py.replace Py.LF " " s) in
  Py.strip t = t ∧ line_feed ∉ chars t.
Proof.
  simpl. split; [apply strip_idemp|].
  intros H%strip_chars%replace_char_chars. destruct H as [H|[_ H]]; [|done].
  apply list_elem_of_singleton in H. discriminate.
Qed.

(** X2.
    The title and the author that the accessors return are trimmed and
    hold no line feed: in a report each takes one line. *)
Theorem title_author_single_line (r : LitItem) :
  (∀ t, get_title r = Ret t → Py.strip t = t ∧ line_feed ∉ chars t) ∧
  (∀ a, get_author r = Ret a → Py.strip a = a ∧ line_feed ∉ chars a).
Proof.
  split.
  - intros t. unfold get_title.
    destruct (as_str _) as [s| |]; simpl; [|done..].
    intros [= <-]. apply normalised_single_line.
  - intros a. unfold get_author.
    destruct (as_str (dict_get (data r) "A1" _)) as [a1| |]; simpl; [|done..].
    destruct (negb _).
    + destruct (as_str (dict_get (data r) "A2" _)) as [a2| |]; simpl; [|done..].
      intros [= <-]. apply normalised_single_line.
    + intros [= <-]. apply normalised_single_line.
Qed.

Lemma title_author_single_line_witness :
  Py.strip "Foo" = "Foo" ∧ line_feed ∉ chars "Foo".
Proof.
  apply (proj1 (title_author_single_line
                  (LitItem_ris ("T1  - Foo" +:+ Py.LF +:+ " "))) "Foo").
  vm_compute. reflexivity.
Defined.

(** X3.
    The year accessor returns for every field map, [None] and the empty
    string included; what it returns is trimmed and holds no square
    bracket. *)
Theorem get_year_clean (r : LitItem) :
  ∃ y, get_year r = Ret y ∧ Py.strip y = y ∧
       (lbracket ∉ chars y) ∧ (rbracket ∉ chars y).
Proof.
  assert (Py.strip "kein Jahr" = "kein Jahr" ∧
          (lbracket ∉ chars "kein Jahr") ∧ (rbracket ∉ chars "kein Jahr")) as Hs.
  { split; [reflexivity|]. split; intros H; not_in_chars H. }
  unfold get_year. destruct (dict_get _ _ _) as [|year]; [by eexists|].
  destruct (negb _); [by eexists|]. eexists. split; [done|].
  split; [apply strip_idemp|]. split.
  - intros H%strip_chars%replace_char_chars. destruct H as [H|[H _]].
    { by apply elem_of_nil in H. }
    apply replace_char_chars in H as [H|[_ H]]; [by apply elem_of_nil in H|done].
  - intros H%strip_chars%replace_char_chars. destruct H as [H|[_ H]]; [|done].
    by apply elem_of_nil in H.
Qed.

(** ** Equality of Records *)

(** X1.
    On Records with a string title, [==] is an equivalence: it holds of a
    Record and itself, gives the same answer in both directions, and is
    transitive. *)
Theorem LitItem_eq_equivalence (r1 r2 r3 : LitItem)
    (H1 : has_str_title r1) (H2 : has_str_title r2) (H3 : has_str_title r3) :
  LitItem_eq r1 r1 = Ret true ∧
  LitItem_eq r1 r2 = LitItem_eq r2 r1 ∧
  (LitItem_eq r1 r2 = Ret true → LitItem_eq r2 r3 = Ret true →
   LitItem_eq r1 r3 = Ret true).
Proof.
  rewrite !LitItem_eq_key by done. split; [|split].
  - by rewrite bool_decide_eq_true_2.
  - f_equal. apply bool_decide_ext. split; by intros ->.
  - intros [= E12%bool_decide_eq_true] [= E23%bool_decide_eq_true].
    rewrite bool_decide_eq_true_2; [done|]. congruence.
Qed.

Lemma LitItem_eq_equivalence_witness :
  LitItem_eq (LitItem_ris entry_jane) (LitItem_ris entry_doe)
  = LitItem_eq (LitItem_ris entry_doe) (LitItem_ris entry_jane).
Proof.
  exact (proj1 (proj2 (LitItem_eq_equivalence
           (LitItem_ris entry_jane) (LitItem_ris entry_doe) (LitItem_ris entry_jane)
           (LitItem_ris_has_str_title _) (LitItem_ris_has_str_title _)
           (LitItem_ris_has_str_title _)))).
Defined.

(** ** Records of the fixed-field reader *)

(** X4.
    The accessors of the Record built from a working field set.  The title
    always returns: it is the main title, a space and the subtitle,
    normalised, and never the title sentinel.  The year is the sentinel when
    the year is missing.  The author raises exactly when the author is
    missing; an author that is blank once normalised gives the author
    sentinel. *)
Theorem tricat_accessors (d : gmap string string) :
  let norm s := Py.strip (Py.replace Py.LF " " s) in
  get_title (LitItem_tricat d)
    = Ret (norm (dict_get d "title" "" +:+ " " +:+ dict_get d "subtitle" "")) ∧
  (d !! "year" = None → get_year (LitItem_tricat d) = Ret "kein Jahr") ∧
  (get_author (LitItem_tricat d) = Raise AttributeError ↔ d !! "author" = None) ∧
  (∀ a, d !! "author" = Some a →
     get_author (LitItem_tricat d)
       = Ret (if Py.truthy (norm a) then norm a else "kein Autor")).
Proof.
  simpl. unfold get_title, get_year, get_author, dict_get. simpl.
  unfold extract_tricat. simplify_map_eq. split; [done|]. split; [|split].
  - by intros ->.
  - destruct (d !! "author") as [a|]; simpl; [|done].
    split; [|done]. by destruct (negb _).
  - intros a ->. simpl.
    by destruct (Py.strip (Py.replace Py.LF " " a)).
Qed.

Lemma tricat_accessors_witness :
  get_author (LitItem_tricat {["author" := " "; "year" := "2019"]})
  = Ret "kein Autor".
Proof.
  refine (proj2 (proj2 (proj2 (tricat_accessors
            {["author" := " "; "year" := "2019"]}))) " " _).
  reflexivity.
Defined.

(** ** Lines of a tagged-field entry outside any field *)

(** X5.
    Lines before the first tag line leave no trace in the field map. *)
Theorem extract_ris_leading_lines (pre rest : list string) (hd : string)
    (Hpre : Forall (λ l, Py.re_match_tag l = None) pre)
    (Hhd : is_Some (Py.re_match_tag hd)) :
  extract_ris_lines (pre ++ hd :: rest) = extract_ris_lines (hd :: rest).
Proof.
  unfold extract_ris_lines. rewrite foldl_app.
  rewrite extract_ris_fold_continuation by done. simpl.
  destruct Hhd as [[key datum] ->]. done.
Qed.

Lemma extract_ris_leading_lines_witness :
  extract_ris_lines (["Literaturliste"; ""] ++ "T1  - Foo" :: ["PY  - 2020"])
  = extract_ris_lines ("T1  - Foo" :: ["PY  - 2020"]).
Proof.
  apply extract_ris_leading_lines.
  - repeat constructor.
  - vm_compute. eauto.
Defined.

(** X6.
    A chunk without any tag line gives a field map with the empty tag alone,
    and a Record whose three accessors return the sentinels. *)
Theorem extract_ris_no_tag (text : string)
    (Hno : Forall (λ l, Py.re_match_tag l = None) (Py.split Py.LF text)) :
  dom (extract_ris text) = {[""]} ∧
  get_title (LitItem_ris text) = Ret "kein Titel" ∧
  get_year (LitItem_ris text) = Ret "kein Jahr" ∧
  get_author (LitItem_ris text) = Ret "kein Autor".
Proof.
  assert (∃ v, extract_ris text = {["" := v]}) as [v Hv].
  { unfold extract_ris, extract_ris_lines.
    rewrite extract_ris_fold_continuation by done. eexists.
    apply insert_empty. }
  unfold get_title, get_year, get_author, dict_get, LitItem_ris. simpl.
  rewrite Hv. split; [|done]. by rewrite dom_singleton_L.
Qed.

Lemma extract_ris_no_tag_witness :
  get_title (LitItem_ris "") = Ret "kein Titel".
Proof.
  refine (proj1 (proj2 (extract_ris_no_tag "" _))). repeat constructor.
Defined.

(** ** Chunks of a tagged-field file *)

Lemma prefix_append sep s :
  String.prefix sep s = true → ∃ t, s = sep +:+ t.
Proof.
  revert s. induction sep as [|c sep IH]; intros s; simpl.
  - intros _. by exists s.
  - destruct s as [|x s]; simpl; [done|].
    destruct (ascii_dec c x) as [->|]; [|done].
    intros [t ->]%IH. by exists t.
Qed.

Lemma split_go_skip sep p cur s :
  Py.split_go sep (String.length p) cur (p +:+ s) = Py.split_go sep 0 cur s.
Proof.
  induction p as [|c p IH]; [done|]. rewrite append_cons.
  cbn [String.length Py.split_go]. exact IH.
Qed.

Lemma split_go_cons sep skip cur s : ∃ x l, Py.split_go sep skip cur s = x :: l.
Proof.
  revert skip cur.
  induction s as [|c s IH]; intros skip cur; cbn [Py.split_go]; [eauto|].
  destruct skip; [|apply IH].
  destruct (String.prefix sep (String c s)); [eauto|apply IH].
Qed.

Lemma split_go_join sep n s cur :
  sep ≠ "" → String.length s < n →
  Py.join sep (Py.split_go sep 0 cur s) = cur +:+ s.
Proof.
  intros Hsep. revert s cur. induction n as [|n IH]; intros s cur Hn; [lia|].
  destruct s as [|c s].
  - simpl. by rewrite append_empty_r.
  - cbn [Py.split_go]. destruct (String.prefix sep (String c s)) eqn:E.
    + destruct sep as [|c' sep']; [done|].
      apply prefix_append in E as [t E]. rewrite append_cons in E.
      injection E as <- ->.
      replace (String.length (String c sep') - 1) with (String.length sep')
        by (simpl; lia).
      rewrite split_go_skip.
      destruct (split_go_cons (String c sep') 0 "" t) as (x & l & Hl).
      unfold Py.join in *. rewrite Hl, concat_cons2, <- Hl, IH.
      * by rewrite append_cons.
      * simpl in Hn. assert (String.length (sep' +:+ t)
                             = String.length sep' + String.length t) as Hlen.
        { clear. induction sep' as [|a u IHu]; [done|].
          rewrite append_cons. simpl. by rewrite IHu. }
        lia.
    + rewrite IH by (simpl in Hn; lia). by rewrite append_assoc.
Qed.

(** X7.
    Nothing of the file is lost or added by the cut into chunks: the chunks,
    joined by two line feeds, are the file.  There is one Record per chunk,
    and at least one, whatever the file holds. *)
Theorem read_ris_file_chunks (text : string) :
  Py.join (Py.LF +:+ Py.LF) (split_ris text) = text ∧
  length (read_ris_file text) = length (split_ris text) ∧
  read_ris_file text ≠ [].
Proof.
  split; [|split].
  - unfold split_ris, Py.split.
    by rewrite (split_go_join _ (S (String.length text))) by (done || lia).
  - unfold read_ris_file. by rewrite length_fmap.
  - unfold read_ris_file, split_ris, Py.split.
    by destruct (split_go_cons (Py.LF +:+ Py.LF) 0 "" text) as (x & l & ->).
Qed.

(** ** The multi-line helper, in full *)

(** X8.
    From a cursor at the start of a run of lines that are not blank: when a
    blank line ends the run, the helper returns the fragments of the run,
    joined by single spaces, and the length of the run; when the input ends
    with the run, it raises [IndexError]. *)
Theorem accumulate_tricat_lines_result (before pre rest : list string)
    (Hpre : Forall (λ l, Py.truthy (Py.strip l) = true) pre)
    (Hrest : ∀ b, head rest = Some b → Py.strip b = "") :
  accumulate_tricat_lines (before ++ pre ++ rest) (length before) =
  match rest with
  | [] => Raise IndexError
  | _ :: _ => Ret (Py.join " " (fragment <$> pre), length pre)
  end.
Proof.
  destruct rest as [|b post].
  - rewrite app_nil_r. by apply accumulate_tricat_lines_no_blank.
  - apply accumulate_tricat_lines_blank; [done|]. by apply Hrest.
Qed.

Lemma accumulate_tricat_lines_result_witness :
  accumulate_tricat_lines
    (["Jahr 2019" +:+ Py.LF]
     ++ ["Haupttitel Bar" +:+ Py.LF; "  und Baz " +:+ Py.LF]
     ++ [Py.LF; "Signatur" +:+ Py.LF]) 1
  = Ret ("Bar und Baz", 2).
Proof.
  apply (accumulate_tricat_lines_result
           ["Jahr 2019" +:+ Py.LF]
           ["Haupttitel Bar" +:+ Py.LF; "  und Baz " +:+ Py.LF]
           [Py.LF; "Signatur" +:+ Py.LF]).
  - repeat constructor.
  - intros b [= <-]. reflexivity.
Defined.

(** ** How the fixed-field reader ends *)

Lemma accumulate_from_raises rest acc e :
  accumulate_from rest acc = Raise e → e = IndexError.
Proof.
  revert acc. induction rest as [|l rest IH]; intros acc; simpl.
  - by intros [= <-].
  - destruct (Py.truthy _); [apply IH|done].
Qed.

Lemma accumulate_tricat_lines_raises lines i e :
  accumulate_tricat_lines lines i = Raise e → e = IndexError.
Proof.
  rewrite accumulate_tricat_lines_from.
  destruct (accumulate_from _ _) as [out|e'|] eqn:E; simpl; try done.
  intros [= <-]. by apply accumulate_from_raises in E.
Qed.

Lemma read_tricat_loop_raises fuel lines i cd items e :
  read_tricat_loop fuel lines i cd items = Raise e → e = IndexError.
Proof.
  revert i cd items. induction fuel as [|fuel IH]; intros i cd items; [done|].
  simpl. destruct (i <? length lines)%nat; [|done].
  destruct (lines !! i) as [l|]; [|by intros [= <-]].
  repeat (destruct (Py.startswith (Py.lstrip l) _);
          [first [apply IH
                 |destruct (accumulate_tricat_lines _ _) as [r|e'|] eqn:Er; simpl;
                  [apply IH
                  |intros [= <-]; by apply accumulate_tricat_lines_raises in Er
                  |done]]|]).
  apply IH.
Qed.

(** The reader is the scan followed by the commit of the working field
    set. *)
Lemma read_tricat_loop_scan fuel lines i cd items :
  read_tricat_loop fuel lines i cd items =
  (st <- read_tricat_scan fuel lines i cd items;
   Ret (st.1 ++ [LitItem_tricat st.2])).
Proof.
  revert i cd items. induction fuel as [|fuel IH]; intros i cd items; [done|].
  simpl. destruct (i <? length lines)%nat; [|done].
  destruct (lines !! i) as [l|]; [|done].
  repeat (destruct (Py.startswith (Py.lstrip l) _);
          [first [apply IH
                 |destruct (accumulate_tricat_lines _ _); simpl; [apply IH|done..]]|]).
  apply IH.
Qed.

(** X9.
    The scan ends on every input.  Either it raises [IndexError], or it
    returns a list that is not empty: its last Record is the working field
    set as it stood at the end of the input. *)
Theorem read_tricat_file_outcome (all_lines : list string) :
  read_tricat_file all_lines = Raise IndexError ∨
  ∃ items cd,
    read_tricat_scan (S (length all_lines)) all_lines 0 ∅ [] = Ret (items, cd) ∧
    read_tricat_file all_lines = Ret (items ++ [LitItem_tricat cd]).
Proof.
  pose proof (read_tricat_file_has_fuel all_lines) as Hfuel.
  destruct (read_tricat_file all_lines) as [out|e|] eqn:E; [| |done].
  - right. unfold read_tricat_file in E. rewrite read_tricat_loop_scan in E.
    destruct (read_tricat_scan _ _ _ _ _) as [[items cd]| |]; simpl in E; [|done..].
    exists items, cd. split; [done|]. by injection E as <-.
  - left. apply read_tricat_loop_raises in E as ->. done.
Qed.

Lemma accumulate_from_Exists rest acc :
  Exists (λ l, Py.strip l = "") rest → ∃ out, accumulate_from rest acc = Ret out.
Proof.
  intros H. revert acc. induction H as [l rest Hl|l rest _ IH]; intros acc; simpl.
  - rewrite Hl. eauto.
  - destruct (Py.truthy _); [apply IH|eauto].
Qed.

Lemma accumulate_tricat_lines_blank_end init b i :
  Py.strip b = "" → i < length (init ++ [b]) →
  ∃ r, accumulate_tricat_lines (init ++ [b]) i = Ret r.
Proof.
  intros Hb Hi. rewrite accumulate_tricat_lines_from.
  rewrite length_app in Hi. simpl in Hi.
  destruct (accumulate_from_Exists (drop i (init ++ [b])) []) as [out ->].
  - rewrite drop_app_le by lia. apply Exists_app. right. by left.
  - simpl. eauto.
Qed.

Local Ltac label_returns IH Hl Hb Hi E :=
  let r := fresh "r" in
  let Er := fresh "Er" in
  destruct (accumulate_tricat_lines_blank_end _ _ _ Hb Hi) as [r Er];
  rewrite Er; simpl; apply IH;
  assert (Py.truthy (Py.strip _) = true) as Hnb
    by (eapply labelled_nonblank; [|exact E]; reflexivity);
  pose proof (accumulate_tricat_lines_offset _ _ _ _ Hl Hnb Er); lia.

Lemma read_tricat_loop_blank_end init b fuel i cd items :
  Py.strip b = "" → length (init ++ [b]) - i < fuel →
  ∃ out, read_tricat_loop fuel (init ++ [b]) i cd items = Ret out.
Proof.
  intros Hb. revert i cd items.
  induction fuel as [|fuel IH]; intros i cd items Hfuel; [lia|].
  simpl. destruct (i <? length (init ++ [b]))%nat eqn:Hi; [|eauto].
  apply Nat.ltb_lt in Hi.
  destruct ((init ++ [b]) !! i) as [l|] eqn:Hl;
    [|apply lookup_ge_None in Hl; lia].
  destruct (Py.startswith (Py.lstrip l) "Jahr") eqn:E1; [apply IH; lia|].
  destruct (Py.startswith (Py.lstrip l) "Haupttitel") eqn:E2;
    [label_returns IH Hl Hb Hi E2|].
  destruct (Py.startswith (Py.lstrip l) "Titelzusatz") eqn:E3;
    [label_returns IH Hl Hb Hi E3|].
  destruct (Py.startswith (Py.lstrip l) "1. Person") eqn:E4;
    [label_returns IH Hl Hb Hi E4|].
  apply IH. lia.
Qed.

(** X10.
    An input whose last line is blank is read without an exception. *)
Theorem read_tricat_file_blank_end (init : list string) (b : string)
    (Hb : Py.strip b = "") :
  ∃ out, read_tricat_file (init ++ [b]) = Ret out.
Proof. apply read_tricat_loop_blank_end; [done|lia]. Qed.

Lemma read_tricat_file_blank_end_witness :
  ∃ out, read_tricat_file (["Jahr 2019" +:+ Py.LF; "Haupttitel Bar" +:+ Py.LF;
                            "1. Person Smith, J." +:+ Py.LF] ++ [Py.LF]) = Ret out.
Proof. apply read_tricat_file_blank_end. reflexivity. Defined.

(** ** Which Records of the fixed-field reader have an author *)

Lemma authored_get_author r : authored r → ∃ a, get_author r = Ret a.
Proof.
  intros (d & a & -> & Ha). unfold get_author, dict_get. simpl.
  unfold extract_tricat. simplify_map_eq. simpl.
  destruct (negb _); simpl; eauto.
Qed.

Lemma authored_tail_snoc items cd :
  Forall authored (tail items) → (items ≠ [] → is_Some (cd !! "author")) →
  Forall authored (tail (items ++ [LitItem_tricat cd])).
Proof.
  intros Htail Hcd. destruct items as [|x items]; simpl; [constructor|].
  apply Forall_app. split; [done|]. constructor; [|constructor].
  destruct Hcd as [a Ha]; [done|]. by exists cd, a.
Qed.

Lemma read_tricat_loop_authored fuel lines i cd items out :
  Forall authored (tail items) → (items ≠ [] → is_Some (cd !! "author")) →
  read_tricat_loop fuel lines i cd items = Ret out →
  Forall authored (tail out).
Proof.
  revert i cd items. induction fuel as [|fuel IH]; intros i cd items Ht Hcd; [done|].
  simpl. destruct (i <? length lines)%nat.
  2:{ intros [= <-]. by apply authored_tail_snoc. }
  destruct (lines !! i) as [l|]; [|done].
  destruct (Py.startswith (Py.lstrip l) "Jahr").
  { apply IH; [done|]. intros H. rewrite lookup_insert_ne by done. auto. }
  destruct (Py.startswith (Py.lstrip l) "Haupttitel").
  { destruct (accumulate_tricat_lines _ _) as [r| |]; simpl; [|done..].
    apply IH; [done|]. intros H. rewrite lookup_insert_ne by done. auto. }
  destruct (Py.startswith (Py.lstrip l) "Titelzusatz").
  { destruct (accumulate_tricat_lines _ _) as [r| |]; simpl; [|done..].
    apply IH; [done|]. intros H. rewrite lookup_insert_ne by done. auto. }
  destruct (Py.startswith (Py.lstrip l) "1. Person"); [|by apply IH].
  destruct (accumulate_tricat_lines _ _) as [r| |]; simpl; [|done..].
  apply IH.
  - case_bool_decide; simpl; [done|]. by apply authored_tail_snoc.
  - intros _. rewrite lookup_insert_eq. eauto.
Qed.

Lemma read_tricat_loop_constructed fuel lines i cd items out :
  Forall constructed items →
  read_tricat_loop fuel lines i cd items = Ret out →
  Forall constructed out.
Proof.
  revert i cd items. induction fuel as [|fuel IH]; intros i cd items Hc; [done|].
  assert (Forall constructed (items ++ [LitItem_tricat cd])) as Hsnoc.
  { apply Forall_app. split; [done|]. repeat constructor. }
  simpl. destruct (i <? length lines)%nat; [|by intros [= <-]].
  destruct (lines !! i) as [l|]; [|done].
  repeat (destruct (Py.startswith (Py.lstrip l) _);
          [first [by apply IH
                 |destruct (accumulate_tricat_lines _ _); simpl; [|done..];
                  apply IH; try case_bool_decide; done]|]).
  by apply IH.
Qed.

(** X11.
    Of the Records a fixed-field input gives, only the first can be without
    an author: the author accessor returns on every later Record, and the
    title accessor returns on all of them. *)
Theorem read_tricat_file_authors (all_lines : list string) (out : list LitItem)
    (Hrun : read_tricat_file all_lines = Ret out) :
  Forall (λ r, ∃ a, get_author r = Ret a) (tail out) ∧
  Forall (λ r, ∃ t, get_title r = Ret t) out.
Proof.
  split.
  - apply (Forall_impl authored); [|apply authored_get_author].
    eapply (read_tricat_loop_authored _ all_lines 0 ∅ []);
      [constructor|done|exact Hrun].
  - apply (Forall_impl constructed).
    + eapply (read_tricat_loop_constructed _ all_lines 0 ∅ []);
        [constructor|exact Hrun].
    + intros r Hr. by apply get_title_ret, constructed_has_str_title.
Qed.

Lemma read_tricat_file_authors_witness :
  ∃ r1 r2, read_tricat_file block_year_then_author = Ret [r1; r2] ∧
           get_author r1 = Raise AttributeError ∧
           Forall (λ r, ∃ a, get_author r = Ret a) [r2].
Proof.
  exists (LitItem_tricat {["year" := "2019"]}),
         (LitItem_tricat {["author" := "Smith, J."]}).
  split; [vm_compute; reflexivity|]. split; [vm_compute; reflexivity|].
  refine (proj1 (read_tricat_file_authors block_year_then_author
                   [LitItem_tricat {["year" := "2019"]};
                    LitItem_tricat {["author" := "Smith, J."]}] _)).
  vm_compute. reflexivity.
Defined.

(** ** Membership, intersection and difference *)

(** What [equal_in] says in terms of [==]. *)
Lemma equal_in_eq (l : list LitItem) (x : LitItem) :
  has_str_title x → Forall has_str_title l →
  equal_in l x ↔ ∃ y, y ∈ l ∧ LitItem_eq x y = Ret true.
Proof.
  intros Hx Hl. rewrite Forall_forall in Hl. unfold equal_in.
  rewrite list_elem_of_fmap. split.
  - intros (y & Hk & Hy). exists y. split; [done|].
    rewrite LitItem_eq_key by auto. by rewrite bool_decide_eq_true_2.
  - intros (y & Hy & Heq). exists y. split; [|done].
    rewrite LitItem_eq_key in Heq by auto.
    by injection Heq as Heq%bool_decide_eq_true.
Qed.

Lemma contains_loop_key (x : LitItem) (l : list LitItem) :
  has_str_title x → Forall has_str_title l →
  contains_loop x l = Ret (bool_decide (equal_in l x)).
Proof.
  intros Hx Hl. unfold equal_in. induction Hl as [|y l Hy _ IH]; simpl; [done|].
  rewrite (LitItem_eq_key x y) by done. simpl.
  destruct (decide (eq_key x = eq_key y)) as [Hk|Hk].
  - rewrite (bool_decide_eq_true_2 _ Hk), bool_decide_eq_true_2; [done|].
    rewrite Hk. by left.
  - rewrite (bool_decide_eq_false_2 _ Hk), IH. f_equal.
    apply bool_decide_ext. rewrite elem_of_cons.
    split; [by right|]. intros [Heq|?]; [by destruct Hk|done].
Qed.

(** X13.
    [item in bibliography] raises [ValueError] for a value that is no
    [LitItem]; for a Record it answers whether some Record of the collection
    compares equal to it, which is also the answer of [item in
    bibliography.items]. *)
Theorem Bibliography_contains_spec (self : nat) (st : gmap nat (list LitItem))
    (items : list LitItem) (x : LitItem)
    (Hself : st !! self = Some items)
    (Hx : has_str_title x) (Hwf : Forall has_str_title items) :
  Bibliography_contains self ObjOther st = Raise ValueError ∧
  Bibliography_contains self (ObjLitItem x) st = list_contains x items ∧
  (Bibliography_contains self (ObjLitItem x) st = Ret true ↔
     ∃ y, y ∈ items ∧ LitItem_eq x y = Ret true) ∧
  (Bibliography_contains self (ObjLitItem x) st = Ret false ↔
     ∀ y, y ∈ items → LitItem_eq x y = Ret false).
Proof.
  split; [done|]. unfold Bibliography_contains, get_items. rewrite Hself. simpl.
  rewrite contains_loop_key, list_contains_key by done. split; [done|].
  rewrite <- (equal_in_eq items x) by done. split.
  - split; [by intros [= ?%bool_decide_eq_true]|].
    intros ?. by rewrite bool_decide_eq_true_2.
  - rewrite Forall_forall in Hwf. unfold equal_in. split.
    + intros [= Hno%bool_decide_eq_false] y Hy.
      rewrite LitItem_eq_key by auto. f_equal. apply bool_decide_eq_false_2.
      intros Hk. apply Hno. rewrite Hk. by apply list_elem_of_fmap_2.
    + intros Hall. f_equal. apply bool_decide_eq_false_2.
      intros (y & Hk & Hy)%list_elem_of_fmap. specialize (Hall y Hy).
      rewrite LitItem_eq_key in Hall by auto.
      injection Hall as Hall%bool_decide_eq_false. done.
Qed.

Lemma Bibliography_contains_spec_witness :
  Bibliography_contains 0 (ObjLitItem (LitItem_ris entry_doe)) {[0 := three_items]}
  = list_contains (LitItem_ris entry_doe) three_items.
Proof.
  refine (proj1 (proj2 (Bibliography_contains_spec 0 {[0 := three_items]}
                          three_items (LitItem_ris entry_doe) _ _ _))).
  - reflexivity.
  - apply LitItem_ris_has_str_title.
  - repeat constructor; apply LitItem_ris_has_str_title.
Defined.

Lemma filter_items_filter (keep : LitItem → outcome bool) (P : LitItem → Prop)
    `{!∀ x, Decision (P x)} (l : list LitItem) :
  Forall (λ x, keep x = Ret (bool_decide (P x))) l →
  filter_items keep l = Ret (filter P l).
Proof.
  induction 1 as [|x l Hx _ IH]; simpl; [done|].
  rewrite Hx, IH. simpl. rewrite filter_cons. by case_bool_decide; case_decide.
Qed.

Lemma Bibliography_new_lookup (st : gmap nat (list LitItem)) a l :
  st !! a = Some l → (Bibliography_new st).2 !! a = Some l.
Proof.
  intros Ha. simpl. rewrite lookup_insert_ne; [done|].
  intros <-. pose proof (Bibliography_new_fresh st) as Hf. simpl in Hf. congruence.
Qed.

(** X14.
    [intersect] and [difference] split the collection they are called on:
    the one keeps, in order and with repetitions, the Records that compare
    equal to some Record of the other collection, the other keeps the rest.
    Each returns a new object and leaves the store otherwise as it was. *)
Theorem intersect_difference_split (self other : nat)
    (st : gmap nat (list LitItem)) (mine theirs : list LitItem)
    (Hself : st !! self = Some mine) (Hother : st !! other = Some theirs)
    (Hmine : Forall has_str_title mine) (Htheirs : Forall has_str_title theirs) :
  ∃ bib,
    st !! bib = None ∧
    intersect self other st
      = Ret (bib, <[bib := filter (equal_in theirs) mine]> st) ∧
    difference self other st
      = Ret (bib, <[bib := filter (λ x, ¬ equal_in theirs x) mine]> st) ∧
    filter (equal_in theirs) mine ++ filter (λ x, ¬ equal_in theirs x) mine
      ≡ₚ mine ∧
    sublist (filter (equal_in theirs) mine) mine ∧
    sublist (filter (λ x, ¬ equal_in theirs x) mine) mine ∧
    (∀ x, x ∈ mine →
       equal_in theirs x ↔ ∃ y, y ∈ theirs ∧ LitItem_eq x y = Ret true).
Proof.
  exists (fresh (dom st)).
  pose proof (Bibliography_new_fresh st) as Hfresh. simpl in Hfresh.
  pose proof (Bibliography_new_lookup st _ _ Hself) as Hself'.
  pose proof (Bibliography_new_lookup st _ _ Hother) as Hother'.
  simpl in Hself', Hother'.
  split; [done|]. split; [|split; [|split; [|split; [|split]]]].
  - unfold intersect, get_items. cbn [Bibliography_new]. rewrite Hself'. simpl.
    rewrite (filter_items_filter _ (equal_in theirs)).
    + simpl. unfold set_items. by rewrite insert_insert_eq.
    + eapply Forall_impl; [exact Hmine|]. intros x Hx. simpl. rewrite Hother'.
      simpl. by apply list_contains_key.
  - unfold difference, get_items. cbn [Bibliography_new]. rewrite Hself'. simpl.
    rewrite (filter_items_filter _ (λ x, ¬ equal_in theirs x)).
    + simpl. unfold set_items. by rewrite insert_insert_eq.
    + eapply Forall_impl; [exact Hmine|]. intros x Hx. simpl. rewrite Hother'.
      simpl. rewrite list_contains_key by done. simpl. f_equal.
      unfold equal_in. by case_bool_decide; case_bool_decide.
  - apply filter_app_complement.
  - apply sublist_filter.
  - apply sublist_filter.
  - intros x Hx. apply equal_in_eq; [|done].
    rewrite Forall_forall in Hmine. by apply Hmine.
Qed.

Lemma intersect_difference_split_witness :
  ∃ bib,
    intersect 0 1 {[0 := three_items; 1 := [LitItem_ris entry_doe]]}
    = Ret (bib, <[bib := [LitItem_ris entry_jane; LitItem_ris entry_doe]]>
                  {[0 := three_items; 1 := [LitItem_ris entry_doe]]}).
Proof.
  destruct (intersect_difference_split 0 1
              {[0 := three_items; 1 := [LitItem_ris entry_doe]]}
              three_items [LitItem_ris entry_doe])
    as (bib & _ & Hi & _).
  - reflexivity.
  - reflexivity.
  - repeat constructor; apply LitItem_ris_has_str_title.
  - repeat constructor; apply LitItem_ris_has_str_title.
  - exists bib. exact Hi.
Defined.

(** ** Deduplicating twice, sorting twice *)

Lemma unique_by_NoDup {A K : Type} `{EqDecision K} (k : A → K) (l acc : list A) :
  NoDup (k <$> (acc ++ l)) → unique_by k l acc = acc ++ l.
Proof.
  revert acc. induction l as [|x l IH]; intros acc Hnd; simpl.
  - by rewrite app_nil_r.
  - rewrite bool_decide_eq_false_2.
    + rewrite IH; rewrite <- app_assoc; done.
    + rewrite fmap_app, fmap_cons in Hnd.
      apply NoDup_app in Hnd as (_ & Hdisj & _).
      intros Hin. apply (Hdisj _ Hin). by left.
Qed.

(** X15.
    [unique] applied to the result of [unique] returns a collection with
    the same list. *)
Theorem unique_idempotent (self : nat) (st : gmap nat (list LitItem))
    (items : list LitItem)
    (Hself : st !! self = Some items) (Hwf : Forall has_str_title items) :
  ∃ b1 st1 u b2,
    unique self st = Ret (b1, st1) ∧ st1 !! b1 = Some u ∧
    unique b1 st1 = Ret (b2, <[b2 := u]> st1) ∧ b2 ≠ b1.
Proof.
  pose proof (unique_by_firsts_of eq_key items [] [] (firsts_of_nil eq_key))
    as (Hnd & Hsub & _).
  simpl in Hsub.
  set (u := unique_by eq_key items []) in *.
  assert (Forall has_str_title u) as Hwfu.
  { apply Forall_forall. intros x Hx. rewrite Forall_forall in Hwf.
    by apply Hwf, (elem_of_sublist u). }
  set (b1 := fresh (dom st)). set (st1 := <[b1 := u]> st).
  exists b1, st1, u, (fresh (dom st1)).
  assert (st1 !! b1 = Some u) as Hb1 by apply lookup_insert_eq.
  split; [|split; [done|split]].
  - unfold unique, get_items. rewrite Hself. simpl.
    rewrite unique_loop_by by (done || constructor). simpl.
    unfold set_items. by rewrite insert_insert_eq.
  - unfold unique, get_items. rewrite Hb1. simpl.
    rewrite unique_loop_by by (done || constructor). simpl.
    rewrite (unique_by_NoDup eq_key u []) by done. simpl.
    unfold set_items. by rewrite insert_insert_eq.
  - pose proof (Bibliography_new_fresh st1) as Hf. simpl in Hf.
    intros Heq. rewrite Heq in Hf. congruence.
Qed.

Lemma unique_idempotent_witness :
  ∃ b1 st1 u b2,
    unique 0 {[0 := three_items]} = Ret (b1, st1) ∧ st1 !! b1 = Some u ∧
    unique b1 st1 = Ret (b2, <[b2 := u]> st1) ∧ b2 ≠ b1.
Proof.
  apply (unique_idempotent 0 {[0 := three_items]} three_items).
  - reflexivity.
  - repeat constructor; apply LitItem_ris_has_str_title.
Defined.

Lemma str_le_not_lt a b : str_le a b → Py.str_lt b a = false.
Proof.
  unfold Py.str_lt, str_le, String.ltb, String.leb.
  rewrite (String.compare_antisym b a). by destruct (String.compare a b).
Qed.

(** Sorting a sorted list changes nothing. *)
Lemma sorted_keyed_id {A : Type} (l : list (string * A)) :
  Sorted (λ a b, str_le a.1 b.1) l → Py.sorted_keyed l = l.
Proof.
  induction 1 as [|x l Hl IH Hhd]; simpl; [done|]. rewrite IH.
  destruct Hhd as [|y l' Hxy]; simpl; [done|].
  by rewrite (str_le_not_lt _ _ Hxy).
Qed.

Lemma keyed_Sorted_inv {A : Type} (key : A → outcome string)
    (ks : list (string * A)) :
  Forall (keyed key) ks →
  Sorted (λ a b, ∃ ka kb, key a = Ret ka ∧ key b = Ret kb ∧ str_le ka kb) ks.*2 →
  Sorted (λ a b, str_le a.1 b.1) ks.
Proof.
  induction 1 as [|p ks Hp Hall IH]; simpl; [constructor|].
  intros Hs. apply Sorted_inv in Hs as [Hs Hhd]. constructor; [by apply IH|].
  destruct ks as [|q ks]; constructor.
  apply HdRel_inv in Hhd as (ka & kb & Ha & Hb & Hle).
  apply Forall_cons in Hall as [Hq _]. unfold keyed in Hp, Hq.
  rewrite Hp in Ha. rewrite Hq in Hb. injection Ha as <-. injection Hb as <-. done.
Qed.

Lemma sorted_of_sorted {A : Type} (key : A → outcome string) (l : list A) :
  Forall (λ x, ∃ k, key x = Ret k) l →
  Sorted (λ a b, ∃ ka kb, key a = Ret ka ∧ key b = Ret kb ∧ str_le ka kb) l →
  Py.sorted key l = Ret l.
Proof.
  intros Hl Hs. destruct (keyed_mapM key l Hl) as (ks & Hks & Hsnd & Hall).
  unfold Py.sorted. rewrite Hks. simpl. rewrite sorted_keyed_id; [by rewrite Hsnd|].
  apply (keyed_Sorted_inv key); [done|]. by rewrite Hsnd.
Qed.

Lemma order_by_key (self : nat) (attr : string) (key : LitItem → outcome string)
    (st : gmap nat (list LitItem)) (items : list LitItem) :
  (attr, key) ∈ [("title", get_title); ("author", get_author); ("year", get_year)] →
  st !! self = Some items →
  order_by self attr st =
  (sorted_items <- Py.sorted key items;
   Ret (fresh (dom st), <[fresh (dom st) := sorted_items]> st)).
Proof.
  intros Hattr Hself. unfold order_by, get_items. rewrite Hself.
  assert (∀ o : outcome (list LitItem),
            (sorted_items <- o;
             let '(bib, st1) := Bibliography_new st in
             Ret (bib, set_items bib sorted_items st1))
            = (sorted_items <- o;
               Ret (fresh (dom st), <[fresh (dom st) := sorted_items]> st))) as Hnew.
  { intros [l| |]; simpl; [|done..]. unfold set_items. by rewrite insert_insert_eq. }
  repeat (apply elem_of_cons in Hattr as [[= -> ->]|Hattr]; [apply Hnew|]).
  by apply elem_of_nil in Hattr.
Qed.

(** X16.
    Sorting by title or by year succeeds on every collection of Records
    with a string title.  The new collection holds the same Records; the
    keys never decrease along it; Records with the same key keep their
    order; the collection sorted is left as it was. *)
Theorem order_by_title_year (self : nat) (attr : string)
    (key : LitItem → outcome string)
    (st : gmap nat (list LitItem)) (items : list LitItem)
    (Hattr : (attr, key) ∈ [("title", get_title); ("year", get_year)])
    (Hself : st !! self = Some items) (Hwf : Forall has_str_title items) :
  ∃ bib out,
    order_by self attr st = Ret (bib, <[bib := out]> st) ∧
    st !! bib = None ∧
    <[bib := out]> st !! self = Some items ∧
    out ≡ₚ items ∧
    StronglySorted
      (λ a b, ∃ ka kb, key a = Ret ka ∧ key b = Ret kb ∧ str_le ka kb) out ∧
    ∀ k, filter (λ r, key r = Ret k) out = filter (λ r, key r = Ret k) items.
Proof.
  apply order_by_sorted; [|done|].
  - apply elem_of_cons in Hattr as [->|Hattr]; [by left|].
    apply list_elem_of_singleton in Hattr as ->. right. right. by left.
  - apply elem_of_cons in Hattr as [[= -> ->]|Hattr].
    + by apply order_by_title_keys.
    + apply list_elem_of_singleton in Hattr as [= -> ->]. apply order_by_year_keys.
Qed.

Lemma order_by_title_year_witness :
  ∃ bib out,
    order_by 0 "title" {[0 := three_items]}
      = Ret (bib, <[bib := out]> {[0 := three_items]}) ∧
    out ≡ₚ three_items.
Proof.
  destruct (order_by_title_year 0 "title" get_title {[0 := three_items]} three_items)
    as (bib & out & Hrun & _ & _ & Hperm & _).
  - by left.
  - reflexivity.
  - repeat constructor; apply LitItem_ris_has_str_title.
  - exists bib, out. split; assumption.
Defined.

(** X17.
    Sorting the sorted collection by the same field gives the same list
    again. *)
Theorem order_by_twice (self : nat) (attr : string)
    (key : LitItem → outcome string)
    (st : gmap nat (list LitItem)) (items : list LitItem)
    (Hattr : (attr, key) ∈
               [("title", get_title); ("author", get_author); ("year", get_year)])
    (Hself : st !! self = Some items)
    (Hkeys : Forall (λ r, ∃ k, key r = Ret k) items) :
  ∃ b1 out b2,
    order_by self attr st = Ret (b1, <[b1 := out]> st) ∧
    order_by b1 attr (<[b1 := out]> st)
      = Ret (b2, <[b2 := out]> (<[b1 := out]> st)) ∧
    b2 ≠ b1.
Proof.
  destruct (sorted_spec key items Hkeys) as (out & Hrun & Hperm & Hsorted & _).
  exists (fresh (dom st)), out, (fresh (dom (<[fresh (dom st) := out]> st))).
  split; [|split].
  - rewrite (order_by_key self attr key st items) by done. by rewrite Hrun.
  - rewrite (order_by_key _ attr key _ out); [|done|apply lookup_insert_eq].
    rewrite sorted_of_sorted; [done| |done]. by rewrite Hperm.
  - intros Heq. pose proof (is_fresh (dom (<[fresh (dom st) := out]> st))) as Hf.
    rewrite Heq in Hf. apply Hf. rewrite dom_insert_L.
    apply elem_of_union. left. by apply elem_of_singleton.
Qed.

Lemma order_by_twice_witness :
  ∃ b1 out b2,
    order_by 0 "year" {[0 := three_items]}
      = Ret (b1, <[b1 := out]> {[0 := three_items]}) ∧
    order_by b1 "year" (<[b1 := out]> {[0 := three_items]})
      = Ret (b2, <[b2 := out]> (<[b1 := out]> {[0 := three_items]})) ∧
    b2 ≠ b1.
Proof.
  apply (order_by_twice 0 "year" get_year {[0 := three_items]} three_items).
  - right. right. by left.
  - reflexivity.
  - apply order_by_year_keys.
Defined.

(** ** The operations in sequence *)

Lemma intersect_filter (self other : nat) (st : gmap nat (list LitItem))
    (mine theirs : list LitItem) :
  st !! self = Some mine → st !! other = Some theirs →
  Forall has_str_title mine → Forall has_str_title theirs →
  intersect self other st
  = Ret (fresh (dom st), <[fresh (dom st) := filter (equal_in theirs) mine]> st).
Proof.
  intros Hself Hother Hmine Htheirs.
  pose proof (Bibliography_new_lookup st _ _ Hself) as Hself'.
  pose proof (Bibliography_new_lookup st _ _ Hother) as Hother'.
  simpl in Hself', Hother'.
  unfold intersect, get_items. cbn [Bibliography_new]. rewrite Hself'. simpl.
  rewrite (filter_items_filter _ (equal_in theirs)).
  - simpl. unfold set_items. by rewrite insert_insert_eq.
  - eapply Forall_impl; [exact Hmine|]. intros x Hx. simpl. rewrite Hother'.
    simpl. by apply list_contains_key.
Qed.

Lemma difference_filter (self other : nat) (st : gmap nat (list LitItem))
    (mine theirs : list LitItem) :
  st !! self = Some mine → st !! other = Some theirs →
  Forall has_str_title mine → Forall has_str_title theirs →
  difference self other st
  = Ret (fresh (dom st),
         <[fresh (dom st) := filter (λ x, ¬ equal_in theirs x) mine]> st).
Proof.
  intros Hself Hother Hmine Htheirs.
  pose proof (Bibliography_new_lookup st _ _ Hself) as Hself'.
  pose proof (Bibliography_new_lookup st _ _ Hother) as Hother'.
  simpl in Hself', Hother'.
  unfold difference, get_items. cbn [Bibliography_new]. rewrite Hself'. simpl.
  rewrite (filter_items_filter _ (λ x, ¬ equal_in theirs x)).
  - simpl. unfold set_items. by rewrite insert_insert_eq.
  - eapply Forall_impl; [exact Hmine|]. intros x Hx. simpl. rewrite Hother'.
    simpl. rewrite list_contains_key by done. simpl. f_equal.
    unfold equal_in. by case_bool_decide; case_bool_decide.
Qed.

Lemma eq_key_true (x y : LitItem) :
  has_str_title x → has_str_title y →
  LitItem_eq x y = Ret true ↔ eq_key x = eq_key y.
Proof.
  intros Hx Hy. rewrite LitItem_eq_key by done. split.
  - by intros [= ?%bool_decide_eq_true].
  - intros ?. by rewrite bool_decide_eq_true_2.
Qed.

(** X18.
    [unique] followed by [order_by('title')], as the driver applies them to
    each collection: the result is sorted by title, has no two Records that
    compare equal, holds only Records of the collection, and represents
    every Record of the collection by one that compares equal to it. *)
Theorem unique_then_order_by (self : nat) (st : gmap nat (list LitItem))
    (items : list LitItem)
    (Hself : st !! self = Some items) (Hwf : Forall has_str_title items) :
  ∃ b1 u b2 out,
    unique self st = Ret (b1, <[b1 := u]> st) ∧
    order_by b1 "title" (<[b1 := u]> st) = Ret (b2, <[b2 := out]> (<[b1 := u]> st)) ∧
    StronglySorted
      (λ a b, ∃ ka kb, get_title a = Ret ka ∧ get_title b = Ret kb ∧ str_le ka kb)
      out ∧
    (∀ i j x y, out !! i = Some x → out !! j = Some y →
       LitItem_eq x y = Ret true → i = j) ∧
    (∀ y, y ∈ out → y ∈ items) ∧
    (∀ x, x ∈ items → ∃ y, y ∈ out ∧ LitItem_eq y x = Ret true).
Proof.
  pose proof (unique_by_firsts_of eq_key items [] [] (firsts_of_nil eq_key))
    as (Hnd & Hsub & Hfirst).
  simpl in Hsub, Hfirst.
  set (u := unique_by eq_key items []) in *.
  assert (Forall has_str_title u) as Hwfu.
  { apply Forall_forall. intros x Hx. rewrite Forall_forall in Hwf.
    by apply Hwf, (elem_of_sublist u). }
  destruct (sorted_spec get_title u (order_by_title_keys u Hwfu))
    as (out & Hrun & Hperm & Hsorted & _).
  assert (Forall has_str_title out) as Hwfo by (by rewrite Hperm).
  exists (fresh (dom st)), u, (fresh (dom (<[fresh (dom st) := u]> st))), out.
  split; [|split; [|split; [|split; [|split]]]].
  - unfold unique, get_items. rewrite Hself. simpl.
    rewrite unique_loop_by by (done || constructor). simpl.
    unfold set_items. by rewrite insert_insert_eq.
  - rewrite (order_by_key _ "title" get_title _ u);
      [by rewrite Hrun|by left|apply lookup_insert_eq].
  - by apply Sorted_keys_strongly.
  - intros i j x y Hi Hj Heq. rewrite Forall_lookup in Hwfo.
    apply eq_key_true in Heq; [|eauto..].
    assert (NoDup (eq_key <$> out)) as Hndo by (by rewrite Hperm).
    apply (NoDup_lookup _ i j (eq_key x) Hndo); rewrite list_lookup_fmap.
    + by rewrite Hi.
    + by rewrite Hj, Heq.
  - intros y Hy. rewrite Hperm in Hy. by apply (elem_of_sublist u).
  - intros x Hx. destruct (Hfirst x Hx) as (i & y & Hy & Hi & Hk & _).
    exists y. split; [by rewrite Hperm|]. rewrite Forall_forall in Hwf.
    apply eq_key_true; [|by apply Hwf|done].
    by eapply Hwf, list_elem_of_lookup_2.
Qed.

Lemma unique_then_order_by_witness :
  ∃ b1 u b2 out,
    unique 0 {[0 := three_items]} = Ret (b1, <[b1 := u]> {[0 := three_items]}) ∧
    order_by b1 "title" (<[b1 := u]> {[0 := three_items]})
      = Ret (b2, <[b2 := out]> (<[b1 := u]> {[0 := three_items]})).
Proof.
  destruct (unique_then_order_by 0 {[0 := three_items]} three_items)
    as (b1 & u & b2 & out & H1 & H2 & _).
  - reflexivity.
  - repeat constructor; apply LitItem_ris_has_str_title.
  - exists b1, u, b2, out. split; assumption.
Defined.

(** X19.
    The intersection and the difference as the driver computes them, the
    one of the first collection with the second, then the other of the
    second with the first: every Record of the second collection is in the
    difference or compares equal to a Record of the intersection, and no
    Record of the difference compares equal to one of the intersection. *)
Theorem intersect_then_difference (a b : nat) (st : gmap nat (list LitItem))
    (A B : list LitItem)
    (Ha : st !! a = Some A) (Hb : st !! b = Some B)
    (HA : Forall has_str_title A) (HB : Forall has_str_title B) :
  ∃ bi inter bd diff,
    intersect a b st = Ret (bi, <[bi := inter]> st) ∧
    difference b a (<[bi := inter]> st)
      = Ret (bd, <[bd := diff]> (<[bi := inter]> st)) ∧
    sublist inter A ∧ sublist diff B ∧
    (∀ y, y ∈ B → y ∈ diff ∨ ∃ x, x ∈ inter ∧ LitItem_eq x y = Ret true) ∧
    (∀ y x, y ∈ diff → x ∈ inter → LitItem_eq x y = Ret false).
Proof.
  set (bi := fresh (dom st)). set (inter := filter (equal_in B) A).
  set (st1 := <[bi := inter]> st).
  assert (st1 !! a = Some A ∧ st1 !! b = Some B) as [Ha1 Hb1].
  { pose proof (Bibliography_new_fresh st) as Hf. simpl in Hf.
    split; (unfold st1; rewrite lookup_insert_ne; [done|]);
      intros Heq; unfold bi in Heq; rewrite Heq in Hf; congruence. }
  exists bi, inter, (fresh (dom st1)), (filter (λ x, ¬ equal_in A x) B).
  rewrite Forall_forall in HA, HB.
  split; [|split; [|split; [|split; [|split]]]].
  - apply intersect_filter; by try apply Forall_forall.
  - apply difference_filter; by try apply Forall_forall.
  - apply sublist_filter.
  - apply sublist_filter.
  - intros y Hy. destruct (decide (equal_in A y)) as [Hin|Hout].
    + right. apply list_elem_of_fmap in Hin as (x & Hk & Hx). exists x. split.
      * apply list_elem_of_filter. split; [|done]. unfold equal_in.
        rewrite <- Hk. by apply list_elem_of_fmap_2.
      * apply eq_key_true; auto.
    + left. by apply list_elem_of_filter.
  - intros y x [Hout Hy]%list_elem_of_filter [_ Hx]%list_elem_of_filter.
    rewrite LitItem_eq_key by auto. f_equal. apply bool_decide_eq_false_2.
    intros Hk. apply Hout. unfold equal_in. rewrite <- Hk.
    by apply list_elem_of_fmap_2.
Qed.

Lemma intersect_then_difference_witness :
  ∃ bi inter bd diff,
    intersect 0 1 two_collections = Ret (bi, <[bi := inter]> two_collections) ∧
    difference 1 0 (<[bi := inter]> two_collections)
      = Ret (bd, <[bd := diff]> (<[bi := inter]> two_collections)).
Proof.
  destruct (intersect_then_difference 0 1 two_collections
              three_items [LitItem_ris "T1  - Qux"])
    as (bi & inter & bd & diff & H1 & H2 & _).
  - reflexivity.
  - reflexivity.
  - repeat constructor; apply LitItem_ris_has_str_title.
  - repeat constructor; apply LitItem_ris_has_str_title.
  - exists bi, inter, bd, diff. split; assumption.
Defined.

(** ** From the text of a fixed-field file to its lines *)

Example readlines_two : readlines ("a" +:+ Py.LF +:+ "b") = ["a" +:+ Py.LF; "b"].
Proof. reflexivity. Qed.

Example readlines_blank :
  readlines ("a" +:+ Py.LF +:+ Py.LF) = ["a" +:+ Py.LF; Py.LF].
Proof. reflexivity. Qed.

Example readlines_empty : readlines "" = [].
Proof. reflexivity. Qed.

Lemma readlines_go_concat cur s :
  String.concat "" (readlines_go cur s) = cur +:+ s.
Proof.
  revert cur. induction s as [|c s IH]; intros cur.
  - simpl. rewrite append_empty_r. by destruct cur.
  - cbn [readlines_go]. destruct (Ascii.eqb_spec c "010") as [->|Hc].
    + specialize (IH ""). change ("" +:+ s) with s in IH.
      destruct (readlines_go "" s) as [|l ls] eqn:E.
      * simpl in IH. by rewrite <- IH.
      * rewrite concat_cons2, IH. change ("" +:+ s) with s.
        by rewrite append_assoc.
    + rewrite IH. by rewrite append_assoc.
Qed.

Lemma readlines_go_blank_end cur s :
  readlines_go cur (s +:+ Py.LF +:+ Py.LF)
  = readlines_go cur (s +:+ Py.LF) ++ [Py.LF].
Proof.
  revert cur. induction s as [|c s IH]; intros cur; [done|].
  rewrite !append_cons. cbn [readlines_go].
  destruct (Ascii.eqb c "010"); by rewrite IH.
Qed.

(** X12.
    The lines of a text, put together again, are the text; and a file whose
    text ends with an empty line is read without an exception. *)
Theorem read_tricat_text_blank_end (text : string) :
  String.concat "" (readlines text) = text ∧
  ∃ out, read_tricat_text (text +:+ Py.LF +:+ Py.LF) = Ret out.
Proof.
  split; [apply readlines_go_concat|].
  unfold read_tricat_text, readlines. rewrite readlines_go_blank_end.
  by apply read_tricat_loop_blank_end; [|lia].
Qed.

(** ** Reports of the two readers *)








(** ** The lines of a report *)

(** Up to the first line feed, a text is one piece of the split. *)
Lemma split_go_line (s cur rest : string) :
  line_feed ∉ chars s →
  Py.split_go Py.LF 0 cur (s +:+ Py.LF +:+ rest) =
  (cur +:+ s) :: Py.split_go Py.LF 0 "" rest.
Proof.
  revert cur. induction s as [|x s IH]; intros cur Hs.
  - change ("" +:+ Py.LF +:+ rest) with (String line_feed rest).
    cbn [Py.split_go]. unfold Py.LF at 1. rewrite prefix_single.
    rewrite bool_decide_eq_true_2 by done. by rewrite append_empty_r.
  - rewrite append_cons. cbn [Py.split_go]. unfold Py.LF at 1.
    rewrite prefix_single, bool_decide_eq_false_2.
    + rewrite IH, append_assoc; [done|].
      intros H. apply Hs. unfold chars. simpl. by right.
    + intros <-. apply Hs. unfold chars. simpl. by left.
Qed.

Lemma split_line (s : string) :
  line_feed ∉ chars s → Py.split Py.LF (s +:+ Py.LF) = [s; ""].
Proof.
  intros Hs. unfold Py.split.
  change (s +:+ Py.LF) with (s +:+ Py.LF +:+ ""). by rewrite split_go_line.
Qed.

Lemma get_title_single_line (r : LitItem) (t : string) :
  get_title r = Ret t → line_feed ∉ chars t.
Proof.
  unfold get_title. destruct (as_str _) as [s| |]; simpl; [|done..].
  intros [= <-]. apply normalised_single_line.
Qed.

Lemma get_author_single_line (r : LitItem) (a : string) :
  get_author r = Ret a → line_feed ∉ chars a.
Proof.
  unfold get_author.
  destruct (as_str (dict_get (data r) "A1" _)) as [a1| |]; simpl; [|done..].
  destruct (negb _).
  - destruct (as_str (dict_get (data r) "A2" _)) as [a2| |]; simpl; [|done..].
    intros [= <-]. apply normalised_single_line.
  - intros [= <-]. apply normalised_single_line.
Qed.

(** The first two lines of a block are the author and the title; the year
    takes the lines that follow. *)
Lemma entry_block_lines (r : LitItem) (row : string * string * string) :
  relevant r row →
  (line_feed ∉ chars row.1.1) ∧ (line_feed ∉ chars row.1.2) ∧
  Py.split Py.LF (entry_block row) =
    row.1.1 :: row.1.2 :: Py.split Py.LF (row.2 +:+ Py.LF) ∧
  (line_feed ∉ chars row.2 →
   Py.split Py.LF (entry_block row) = [row.1.1; row.1.2; row.2; ""]).
Proof.
  intros (Ha%get_author_single_line & Ht%get_title_single_line & _).
  assert (Py.split Py.LF (entry_block row) =
          row.1.1 :: row.1.2 :: Py.split Py.LF (row.2 +:+ Py.LF)) as Hsplit.
  { unfold entry_block, Py.split. by rewrite !split_go_line. }
  repeat split; [done..|].
  intros Hy. by rewrite Hsplit, split_line.
Qed.

(** C9, counterexample.  One Record; the text ends with the line feed of the
    year line, and no blank line follows.  And one Record whose year field
    goes on in a second line: its block has four lines. *)
Lemma write_to_file_no_last_blank :
  relevant (LitItem_ris entry_jane) ("Jane Doe", "Foo", "2020") ∧
  write_to_file 0 "bibl_unique.txt" "X" {[0 := [LitItem_ris entry_jane]]} =
    Ret ("results/bibl_unique.txt",
         "X (1)" +:+ Py.LF +:+ Py.LF +:+
         "Jane Doe" +:+ Py.LF +:+ "Foo" +:+ Py.LF +:+ "2020" +:+ Py.LF) ∧
  write_to_file 0 "bibl_unique.txt" "X" {[0 := [LitItem_ris entry_jane]]} ≠
    Ret ("results/bibl_unique.txt", spec_report "X" [("Jane Doe", "Foo", "2020")]) ∧
  relevant (LitItem_ris entry_two_line_year)
    ("kein Autor", "kein Titel", "2020" +:+ Py.LF +:+ "und 2021") ∧
  write_to_file 0 "bibl_unique.txt" "X" {[0 := [LitItem_ris entry_two_line_year]]} =
    Ret ("results/bibl_unique.txt",
         "X (1)" +:+ Py.LF +:+ Py.LF +:+
         "kein Autor" +:+ Py.LF +:+ "kein Titel" +:+ Py.LF +:+
         "2020" +:+ Py.LF +:+ "und 2021" +:+ Py.LF) ∧
  Py.split Py.LF
    (entry_block ("kein Autor", "kein Titel", "2020" +:+ Py.LF +:+ "und 2021")) =
    ["kein Autor"; "kein Titel"; "2020"; "und 2021"; ""].
Proof. vm_compute. repeat split. discriminate. Qed.

(** C9, amended.  For a collection on whose Records the three accessors
    return, the text written is the header line [header (count)], a blank
    line, and the blocks of the Records in order, joined by line feeds: a
    blank line follows each block but the last.  With a line feed appended
    it is the report of the specification; for the empty collection it is
    that report as it stands.  A block is the author, the title and the year
    value, each followed by a line feed.  The author and the title hold no
    line feed, so they are the first two lines of the block, and the lines
    of the year follow; the block has exactly three lines whenever the year
    value holds no line feed. *)
Theorem write_to_file_report (self : nat) (filepath header : string)
    (st : gmap nat (list LitItem)) (items : list LitItem)
    (rows : list (string * string * string))
    (Hself : st !! self = Some items) (Hrows : Forall2 relevant items rows) :
  ∃ text,
    write_to_file self filepath header st = Ret ("results/" +:+ filepath, text) ∧
    text = header +:+ " (" +:+ Py.str_of_nat (length items) +:+ ")" +:+ Py.LF
           +:+ Py.LF +:+ Py.join Py.LF (entry_block <$> rows) ∧
    (if decide (rows = []) then text else text +:+ Py.LF) = spec_report header rows ∧
    Forall (λ row,
      (line_feed ∉ chars row.1.1) ∧ (line_feed ∉ chars row.1.2) ∧
      Py.split Py.LF (entry_block row) =
        row.1.1 :: row.1.2 :: Py.split Py.LF (row.2 +:+ Py.LF) ∧
      (line_feed ∉ chars row.2 →
       Py.split Py.LF (entry_block row) = [row.1.1; row.1.2; row.2; ""])) rows.
Proof.
  eexists. split; [|split; [reflexivity|split]].
  - unfold write_to_file, Bibliography_len, Bibliography_str, get_items.
    rewrite Hself. simpl. rewrite (mapM_str_relevant items rows Hrows). simpl.
    by rewrite !append_assoc.
  - unfold spec_report. rewrite (Forall2_length _ _ _ Hrows).
    case_decide as Hne; [by subst|].
    rewrite !append_assoc. do 6 f_equal.
    rewrite join_blocks by (by destruct rows). by rewrite <- list_fmap_compose.
  - clear Hself. induction Hrows as [|r row items rows Hr _ IH]; constructor.
    + by apply (entry_block_lines r).
    + exact IH.
Qed.

Lemma write_to_file_report_witness :
  ∃ text,
    write_to_file 0 "bibl_unique.txt" "X" {[0 := [LitItem_ris entry_jane]]} =
      Ret ("results/bibl_unique.txt", text) ∧
    text +:+ Py.LF = spec_report "X" [("Jane Doe", "Foo", "2020")] ∧
    Py.split Py.LF (entry_block ("Jane Doe", "Foo", "2020")) =
      ["Jane Doe"; "Foo"; "2020"; ""].
Proof.
  destruct (write_to_file_report 0 "bibl_unique.txt" "X"
              {[0 := [LitItem_ris entry_jane]]} [LitItem_ris entry_jane]
              [("Jane Doe", "Foo", "2020")]) as (text & Hrun & _ & Hspec & Hlines).
  - reflexivity.
  - repeat constructor.
  - exists text. split; [exact Hrun|split; [exact Hspec|]].
    apply Forall_cons in Hlines as [(_ & _ & _ & Hthree) _]. apply Hthree.
    vm_compute. intros H. repeat (apply elem_of_cons in H as [H|H]; [discriminate|]).
    by apply elem_of_nil in H.
Defined.
